(** * ST7789 panel driver and video player: a shallow embedding

    Embeds the protocol-relevant parts of
    - [spi/display_st7789_v4.py]  (class [ST7789]; module [V4] below) and
    - [spi/webm_video_st7789.py]  (the ffmpeg player; module [Webm] below).

    Conventions.
    - Python integers are [Z]; NumPy [uint16] arithmetic is [Z] with the
      wrap-around written out ([Numpy.uint16]).
    - Hardware and OS calls are recorded as a trace of [event]s.  Whether a
      call returns or raises is decided by the environment ([world]); code runs
      in the error/state monad [M].
    - Durations and clock readings are exact rationals ([Q], seconds);
      floating-point rounding is not modelled. *)

From Stdlib Require Import ZArith QArith Qminmax List Bool Lia.
Import ListNotations.
Open Scope Z_scope.

(* ================================================================== *)
(** ** NumPy fragments used by the two conversions *)

Module Numpy.

(** [astype(np.uint16)] and the result type of [uint16] operators. *)
Definition uint16 (z : Z) : Z := z mod 65536.

Definition and16 (a mask : Z) : Z := uint16 (Z.land a mask).
Definition shl16 (a n : Z) : Z := uint16 (Z.shiftl a n).
Definition shr16 (a n : Z) : Z := uint16 (Z.shiftr a n).
Definition or16 (a b : Z) : Z := uint16 (Z.lor a b).

Inductive byteorder := LittleEndian | BigEndian.

(** Byte order of native arrays on the board (aarch64) and on x86; the
    source relies on it: "NumPy arrays are usually Little Endian by
    default on x86/ARM". *)
Definition native : byteorder := LittleEndian.

(** [ndarray.tobytes()] of one 16-bit element stored in order [o]. *)
Definition tobytes (o : byteorder) (v : Z) : list Z :=
  match o with
  | LittleEndian => [v mod 256; v / 256]
  | BigEndian => [v / 256; v mod 256]
  end.

(** [ndarray.byteswap()] on a 16-bit element: the two bytes change place,
    the dtype (and so the storage order) stays native. *)
Definition byteswap (v : Z) : Z := uint16 ((v mod 256) * 256 + v / 256).

End Numpy.

(** A source pixel: one [uint8] per channel. *)
Record rgb := RGB { red : Z; green : Z; blue : Z }.

Definition is_uint8 (z : Z) : Prop := 0 <= z < 256.

Definition rgb_ok (p : rgb) : Prop :=
  is_uint8 (red p) /\ is_uint8 (green p) /\ is_uint8 (blue p).

(** The closed formula of the specification (refinement target). *)
Definition spec_wire16 (r g b : Z) : Z :=
  Z.lor (Z.lor (Z.shiftl (Z.land r 0xF8) 8) (Z.shiftl (Z.land g 0xFC) 3))
        (Z.shiftr (Z.land b 0xF8) 3).

(* ================================================================== *)
(** ** Pure parts of [display_st7789_v4.py] *)

Module V4Pure.
Import Numpy.

Definition WIDTH : Z := 320.
Definition HEIGHT : Z := 240.

Definition ST7789_SWRESET : Z := 0x01.
Definition ST7789_SLPOUT : Z := 0x11.
Definition ST7789_NORON : Z := 0x13.
Definition ST7789_INVON : Z := 0x21.
Definition ST7789_DISPOFF : Z := 0x28.
Definition ST7789_DISPON : Z := 0x29.
Definition ST7789_CASET : Z := 0x2A.
Definition ST7789_RASET : Z := 0x2B.
Definition ST7789_RAMWR : Z := 0x2C.
Definition ST7789_MADCTL : Z := 0x36.
Definition ST7789_COLMOD : Z := 0x3A.

(** [display_image], per element of [pixels = np.array(..).astype(np.uint16)]:
    [r = (pixels[:,:,0] & 0xF8) << 8], [g = (.. & 0xFC) << 3],
    [b = (.. & 0xF8) >> 3], [rgb565 = r | g | b]. *)
Definition rgb565 (r g b : Z) : Z :=
  let r' := shl16 (and16 (uint16 r) 0xF8) 8 in
  let g' := shl16 (and16 (uint16 g) 0xFC) 3 in
  let b' := shr16 (and16 (uint16 b) 0xF8) 3 in
  or16 (or16 r' g') b'.

(** [rgb565.byteswap().tobytes()], one element. *)
Definition pixel_bytes (p : rgb) : list Z :=
  tobytes native (byteswap (rgb565 (red p) (green p) (blue p))).

(** [pixel_bytes] of the whole (row-major) array. *)
Definition frame_bytes (px : list rgb) : list Z := flat_map pixel_bytes px.

(** [max(0, min(x, bound - 1))] in [set_window]. *)
Definition clip (x bound : Z) : Z := Z.max 0 (Z.min x (bound - 1)).

(** The four payload bytes of CASET / RASET. *)
Definition addr_payload (a0 a1 : Z) : list Z :=
  [Z.land (Z.shiftr a0 8) 0xFF; Z.land a0 0xFF;
   Z.land (Z.shiftr a1 8) 0xFF; Z.land a1 0xFF].

(** The window after the defaults and the clipping of [set_window]:
    [(x0, y0, x1, y1)]. *)
Definition clipped_window (width height : Z) (x0 y0 : Z) (x1 y1 : option Z)
  : Z * Z * Z * Z :=
  let x1 := match x1 with None => width - 1 | Some x => x end in
  let y1 := match y1 with None => height - 1 | Some y => y end in
  (clip x0 width, clip y0 height, clip x1 width, clip y1 height).

End V4Pure.

(* ================================================================== *)
(** ** Pure parts of [webm_video_st7789.py] *)

Module WebmPure.
Import Numpy.

Definition WIDTH : Z := 320.
Definition HEIGHT : Z := 240.
Definition ROTATION : Z := 0x60.
Definition SPI_CHUNK_SIZE : nat := 4096.
Definition TARGET_FPS : Z := 25.

(** [display_frame_rgb565], per element:
    [r = uint8.astype(uint16) >> 3], [g = .. >> 2], [b = .. >> 3],
    [(r << 11) | (g << 5) | b]. *)
Definition rgb565 (r g b : Z) : Z :=
  let r' := shr16 (uint16 r) 3 in
  let g' := shr16 (uint16 g) 2 in
  let b' := shr16 (uint16 b) 3 in
  or16 (or16 (shl16 r' 11) (shl16 g' 5)) b'.

(** [pixel_data_rgb565.astype('>u2').tobytes()], one element. *)
Definition pixel_bytes (p : rgb) : list Z :=
  tobytes BigEndian (uint16 (rgb565 (red p) (green p) (blue p))).

Definition frame_bytes (px : list rgb) : list Z := flat_map pixel_bytes px.

(** [set_address_window] encodes its arguments as they are: no clipping. *)
Definition addr_payload (a0 a1 : Z) : list Z :=
  [Z.land (Z.shiftr a0 8) 0xFF; Z.land a0 0xFF;
   Z.land (Z.shiftr a1 8) 0xFF; Z.land a1 0xFF].

End WebmPure.

(** Reading a 4-byte address payload back as the panel does:
    [(start, end)], each big-endian. *)
Definition decode_addr (payload : list Z) : option (Z * Z) :=
  match payload with
  | [h0; l0; h1; l1] => Some (h0 * 256 + l0, h1 * 256 + l1)
  | _ => None
  end.

(* ================================================================== *)
(** ** Hardware boundary: events, environment, and the monad *)

(** Python exceptions that reach the code.  [KeyboardInterrupt] derives
    from [BaseException] only, so [except Exception] does not catch it. *)
Inductive exn := OSError | ValueError | TimeoutExpired | KeyboardInterrupt.

Definition is_Exception (e : exn) : bool :=
  match e with KeyboardInterrupt => false | _ => true end.

Inductive line := DC | RST.

(** Which helper issued a bus write: [command]/[write_command] or
    [data]/[write_data].  The tag is bookkeeping of the model; the bytes on
    the wire are the second argument of [WriteBytes]. *)
Inductive xfer := Command | Data.

(** One call across the hardware/OS boundary. *)
Inductive event :=
| SetValue (l : line) (active : bool)   (* gpiod [set_value]: ACTIVE = true *)
| WriteBytes (k : xfer) (bs : list Z)   (* [spi.writebytes] / [writebytes2] *)
| Sleep (secs : Q)                      (* [time.sleep] *)
| RequestClose (l : line)               (* v4: [_dc_request.close()] *)
| SpiOpen                               (* [spi.open] and its configuration *)
| SpiClose                              (* [spi.close] *)
| RequestLines                          (* [gpiod.request_lines] *)
| ReleaseLines                          (* exit of the [with] block *)
| Spawn                                 (* [subprocess.Popen] of ffmpeg *)
| ReadStdout                            (* [ffmpeg_proc.stdout.read] *)
| ReadStderr                            (* [proc.stderr.read] *)
| Terminate | Wait | Kill | CloseStdout | CloseStderr
| Raised (e : exn).                     (* the call just logged raised [e] *)

(** The machine: what the environment will answer, and the two module-level
    variables of the player that outlive an exception. *)
Record world := World {
  faults : list (option exn);  (* outcome of the successive calls; [None] and
                                  the end of the list mean "returns" *)
  clock : list Q;              (* successive readings of [time.monotonic] *)
  spi : bool;                  (* player: global [spi] is not [None] *)
  ffmpeg_proc : bool           (* player: local [ffmpeg_proc] is not [None] *)
}.

Inductive result (A : Type) := Ok (a : A) | Err (e : exn).
Arguments Ok {A} a.
Arguments Err {A} e.

Definition M (A : Type) : Type := world -> result A * list event * world.

Definition ret {A} (a : A) : M A := fun w => (Ok a, [], w).

Definition raise {A} (e : exn) : M A := fun w => (Err e, [], w).

Definition bind {A B} (m : M A) (f : A -> M B) : M B := fun w =>
  match m w with
  | (Ok a, t, w1) =>
      match f a w1 with (r, t2, w2) => (r, t ++ t2, w2) end
  | (Err e, t, w1) => (Err e, t, w1)
  end.

Declare Scope monad_scope.
Delimit Scope monad_scope with monad.
Notation "x <- m ;; k" := (bind m (fun x => k))
  (at level 61, m at next level, right associativity) : monad_scope.
Notation "m ;; k" := (bind m (fun _ => k))
  (at level 61, right associativity) : monad_scope.
Open Scope monad_scope.

(** [try: body  except <classes selected by catches>: handler]. *)
Definition try_catch {A} (catches : exn -> bool) (body : M A)
    (handler : exn -> M A) : M A := fun w =>
  match body w with
  | (Err e, t, w1) =>
      if catches e
      then match handler e w1 with (r, t2, w2) => (r, t ++ t2, w2) end
      else (Err e, t, w1)
  | done => done
  end.

(** [try: body  except Exception: handler]. *)
Definition try_except {A} (body : M A) (handler : exn -> M A) : M A :=
  try_catch is_Exception body handler.

(** [try: body  finally: fin]. *)
Definition try_finally {A} (body : M A) (fin : M unit) : M A := fun w =>
  match body w with
  | (r, t, w1) =>
      match fin w1 with
      | (Ok _, t2, w2) => (r, t ++ t2, w2)
      | (Err e, t2, w2) => (Err e, t ++ t2, w2)
      end
  end.

Definition next_fault (w : world) : option exn * world :=
  match faults w with
  | [] => (None, w)
  | f :: fs => (f, World fs (clock w) (spi w) (ffmpeg_proc w))
  end.

(** A call that the environment may let raise. *)
Definition call (e : event) : M unit := fun w =>
  match next_fault w with
  | (None, w1) => (Ok tt, [e], w1)
  | (Some x, w1) => (Err x, [e; Raised x], w1)
  end.

(** [time.monotonic()]. *)
Definition monotonic : M Q := fun w =>
  match clock w with
  | [] => (Ok 0%Q, [], w)
  | t :: ts => (Ok t, [], World (faults w) ts (spi w) (ffmpeg_proc w))
  end.

Definition get_spi : M bool := fun w => (Ok (spi w), [], w).
Definition set_spi (b : bool) : M unit := fun w =>
  (Ok tt, [], World (faults w) (clock w) b (ffmpeg_proc w)).
Definition get_ffmpeg_proc : M bool := fun w => (Ok (ffmpeg_proc w), [], w).
Definition set_ffmpeg_proc (b : bool) : M unit := fun w =>
  (Ok tt, [], World (faults w) (clock w) (spi w) b).

Definition trace_of {A} (m : M A) (w : world) : list event := snd (fst (m w)).
Definition result_of {A} (m : M A) (w : world) : result A := fst (fst (m w)).
Definition world_after {A} (m : M A) (w : world) : world := snd (m w).

(** A world in which every call returns. *)
Definition calm (clk : list Q) : world := World [] clk false false.

(** Argument of [data] / [write_data]: an [int], a [bytes] object, or a
    list of ints. *)
Inductive data_val := PyInt (v : Z) | PyBytes (bs : list Z) | PyList (l : list Z).

Definition in_byte_range (z : Z) : bool := (0 <=? z) && (z <? 256).

(* ================================================================== *)
(** ** [display_st7789_v4.py]: class [ST7789] *)

Module V4.
Export V4Pure.

(** The fields the methods read.  A handle field is [true] when the
    attribute holds a live object and [false] when it is [None]. *)
Record ST7789 := Driver {
  width : Z;
  height : Z;
  _spi : bool;
  _dc_request : bool;
  _rst_request : bool
}.

Definition command (self : ST7789) (cmd : Z) : M unit :=
  if negb (_dc_request self) || negb (_spi self) then ret tt
  else
    try_except
      (call (SetValue DC false) ;;
       call (WriteBytes Command [cmd]))
      (fun _ => ret tt).

Definition data (self : ST7789) (data_val : data_val) : M unit :=
  if negb (_dc_request self) || negb (_spi self) then ret tt
  else
    try_except
      (call (SetValue DC true) ;;
       match data_val with
       | PyInt v => call (WriteBytes Data [v])
       | PyBytes bs => call (WriteBytes Data bs)
       | PyList l =>
           (* [bytes(data_val)] raises ValueError outside range(256) *)
           if forallb in_byte_range l then call (WriteBytes Data l)
           else raise ValueError
       end)
      (fun _ => ret tt).

Definition reset (self : ST7789) : M unit :=
  if negb (_rst_request self) then ret tt
  else
    try_except
      (call (SetValue RST true) ;;
       call (Sleep 0.050) ;;
       call (SetValue RST false) ;;
       call (Sleep 0.050) ;;
       call (SetValue RST true) ;;
       call (Sleep 0.150))
      (fun _ => ret tt).

Definition init_display (self : ST7789) : M unit :=
  command self ST7789_SWRESET ;;
  call (Sleep 0.150) ;;
  command self ST7789_SLPOUT ;;
  call (Sleep 0.500) ;;
  command self ST7789_MADCTL ;;
  data self (PyInt 0x60) ;;
  command self ST7789_COLMOD ;;
  data self (PyInt 0x55) ;;
  command self ST7789_INVON ;;
  command self ST7789_NORON ;;
  call (Sleep 0.01) ;;
  command self ST7789_DISPON ;;
  call (Sleep 0.100).

Definition set_window (self : ST7789) (x0 y0 : Z) (x1 y1 : option Z)
  : M unit :=
  match clipped_window (width self) (height self) x0 y0 x1 y1 with
  | (x0, y0, x1, y1) =>
      command self ST7789_CASET ;;
      data self (PyList (addr_payload x0 x1)) ;;
      command self ST7789_RASET ;;
      data self (PyList (addr_payload y0 y1)) ;;
      command self ST7789_RAMWR
  end.

(** [px] is the array of the image after [convert("RGB")] and
    [resize((width, height))], row-major. *)
Definition display_image (self : ST7789) (px : list rgb) : M unit :=
  set_window self 0 0 None None ;;
  data self (PyBytes (frame_bytes px)).

(** [close] returns the object with its handle fields updated. *)
Definition close (self : ST7789) : M ST7789 :=
  try_except
    (if _spi self && _dc_request self
     then command self ST7789_DISPOFF ;; call (Sleep 0.05)
     else ret tt)
    (fun _ => ret tt) ;;
  (if _dc_request self
   then try_except (call (RequestClose DC)) (fun _ => ret tt)
   else ret tt) ;;
  let self1 := Driver (width self) (height self) (_spi self) false
                      (_rst_request self) in
  (if _rst_request self1
   then try_except (call (RequestClose RST)) (fun _ => ret tt)
   else ret tt) ;;
  let self2 := Driver (width self1) (height self1) (_spi self1)
                      (_dc_request self1) false in
  (if _spi self2
   then try_except (call SpiClose) (fun _ => ret tt)
   else ret tt) ;;
  ret (Driver (width self2) (height self2) false (_dc_request self2)
              (_rst_request self2)).

(** The tail of [__init__], once the handles are held. *)
Definition startup (self : ST7789) : M unit :=
  reset self ;; init_display self.

End V4.

(* ================================================================== *)
(** ** [webm_video_st7789.py] *)

(** [range(0, stop, step)] for a positive [step]. *)
Definition py_range_step (stop step : nat) : list nat :=
  map (fun k => (k * step)%nat) (seq 0 ((stop + step - 1) / step)).

(** [l[i:j]] for [0 <= i <= j]. *)
Definition py_slice {A} (l : list A) (i j : nat) : list A :=
  firstn (j - i) (skipn i l).

(** The slices [data_list[i:i+size]] for [i in range(0, len(data_list), size)]. *)
Definition split_chunks (size : nat) (data_list : list Z) : list (list Z) :=
  map (fun i => py_slice data_list i (i + size))
      (py_range_step (length data_list) size).

(** What one [stdout.read(frame_size)] gives. *)
Inductive read_result := ReadBytes (bs : list Z) | ReadRaises (e : exn).

(** [Image.frombytes('RGB', ...)] followed by [np.array]: bytes to pixels. *)
Fixpoint triples (bs : list Z) : list rgb :=
  match bs with
  | r :: g :: b :: rest => RGB r g b :: triples rest
  | _ => []
  end.

Module Webm.
Export WebmPure.

Fixpoint write_each (k : xfer) (cs : list (list Z)) : M unit :=
  match cs with
  | [] => ret tt
  | c :: rest => call (WriteBytes k c) ;; write_each k rest
  end.

(** [k] records the caller ([write_command] or [write_data]). *)
Definition spi_write (k : xfer) (data_list : list Z) : M unit :=
  s <- get_spi ;;
  if negb s then ret tt
  else
    try_except
      (write_each k (split_chunks SPI_CHUNK_SIZE data_list))
      (fun _ => ret tt).

Definition write_command (cmd : Z) : M unit :=
  call (SetValue DC false) ;;
  spi_write Command [cmd].

Definition write_data (data : data_val) : M unit :=
  call (SetValue DC true) ;;
  match data with
  | PyInt v => spi_write Data [v]
  | PyBytes bs => spi_write Data bs
  | PyList l => spi_write Data l
  end.

Definition reset_display : M unit :=
  call (SetValue RST false) ;;
  call (Sleep 0.1) ;;
  call (SetValue RST true) ;;
  call (Sleep 0.1).

Definition init_display : M unit :=
  reset_display ;;
  write_command 0x11 ;;
  call (Sleep 0.12) ;;
  write_command 0x3A ;;
  write_data (PyInt 0x55) ;;
  write_command 0x36 ;;
  write_data (PyInt ROTATION) ;;
  write_command 0x29 ;;
  call (Sleep 0.1).

Definition set_address_window (x0 y0 x1 y1 : Z) : M unit :=
  write_command 0x2A ;;
  write_data (PyList (addr_payload x0 x1)) ;;
  write_command 0x2B ;;
  write_data (PyList (addr_payload y0 y1)) ;;
  write_command 0x2C.

(** [px] is [np.array(img, dtype=np.uint8)], row-major. *)
Definition display_frame_rgb565 (px : list rgb) : M unit :=
  set_address_window 0 0 (WIDTH - 1) (HEIGHT - 1) ;;
  write_data (PyBytes (frame_bytes px)).

(** [extract_frames]: [starts] is the answer of the liveness check
    ([proc.poll() is None]; as in the [finally] block of [play_video], the
    status query is an answer of the environment).  When the process has
    died its diagnostic stream is read before [None] is returned.  The
    result is "a process object" ([true]) or [None]. *)
Definition extract_frames (starts : bool) : M bool :=
  try_except
    (call Spawn ;;
     call (Sleep 0.1) ;;
     if negb starts
     then call ReadStderr ;; ret false
     else ret true)
    (fun _ => ret false).

Definition frame_size : Z := WIDTH * HEIGHT * 3.
Definition frame_interval : Q := (1 / inject_Z TARGET_FPS)%Q.

Definition black_frame : list rgb :=
  repeat (RGB 0 0 0) (Z.to_nat (WIDTH * HEIGHT)).

(** [Image.frombytes('RGB', (WIDTH, HEIGHT), in_bytes)]: raises unless the
    buffer holds exactly one frame. *)
Definition frombytes (in_bytes : list Z) : option (list rgb) :=
  if Z.of_nat (length in_bytes) =? frame_size
  then Some (triples in_bytes) else None.

Record session := Session {
  frame_count : Z;
  start_time : Q;
  last_fps_update_time : Q
}.

Definition read (rd : read_result) : M (list Z) := fun w =>
  match rd with
  | ReadBytes bs => (Ok bs, [ReadStdout], w)
  | ReadRaises e => (Err e, [ReadStdout; Raised e], w)
  end.

(** "Frame Rate Control": [if sleep_time > 0: time.sleep(sleep_time)]. *)
Definition pace (loop_start_time loop_end_time : Q) : M unit :=
  let processing_time := (loop_end_time - loop_start_time)%Q in
  let sleep_time := (frame_interval - processing_time)%Q in
  if Qlt_le_dec 0 sleep_time then call (Sleep sleep_time) else ret tt.

Inductive loop_ctl := Break | Next (s : session).

(** One pass through the body of [while True]. *)
Definition loop_body (rd : read_result) (s : session) : M loop_ctl :=
  loop_start_time <- monotonic ;;
  got <- try_except (in_bytes <- read rd ;; ret (Some in_bytes))
                    (fun _ => ret None) ;;
  match got with
  | None => ret Break
  | Some in_bytes =>
      if (length in_bytes =? 0)%nat then ret Break
      else if Z.of_nat (length in_bytes) <? frame_size then ret Break
      else
        match frombytes in_bytes with
        | None => ret (Next s)
        | Some frame_image =>
            display_frame_rgb565 frame_image ;;
            let frame_count := frame_count s + 1 in
            loop_end_time <- monotonic ;;
            pace loop_start_time loop_end_time ;;
            current_time <- monotonic ;;
            if Qle_bool 2 (current_time - last_fps_update_time s)
            then ret (Next (Session frame_count (start_time s) current_time))
            else ret (Next (Session frame_count (start_time s)
                                    (last_fps_update_time s)))
        end
  end.

(** [while True]: the reads come from [stream]; past its end every read
    gives [b''] (end of stream). *)
Fixpoint playback_loop (stream : list read_result) (s : session)
  : M session :=
  match stream with
  | [] => loop_body (ReadBytes []) s ;; ret s
  | rd :: rest =>
      c <- loop_body rd s ;;
      match c with
      | Break => ret s
      | Next s' => playback_loop rest s'
      end
  end.

(** What the environment decides for one run of [play_video]. *)
Record scenario := Scenario {
  isfile : bool;              (* [os.path.isfile(video_path)] *)
  ffmpeg_starts : bool;       (* ffmpeg alive at the liveness check *)
  running_at_cleanup : bool;  (* [ffmpeg_proc.poll() is None] in [finally] *)
  stream : list read_result
}.

(** [with gpiod.request_lines(...) as gpio_request: body]. *)
Definition with_request_lines {A} (body : M A) : M A :=
  call RequestLines ;;
  try_finally body (call ReleaseLines).

(** The [finally] block of [play_video]. *)
Definition cleanup (running : bool) : M unit :=
  p <- get_ffmpeg_proc ;;
  (if p && running
   then
     call Terminate ;;
     try_catch (fun e => match e with KeyboardInterrupt => false | _ => true end)
       (call Wait)
       (fun e => match e with
                 | TimeoutExpired => call Kill
                 | _ => ret tt
                 end) ;;
     call CloseStdout ;;
     call CloseStderr
   else ret tt) ;;
  s <- get_spi ;;
  if s then call SpiClose else ret tt.

(** The body of the [with] block of [play_video]. *)
Definition with_body (sc : scenario) : M unit :=
  init_display ;;
  display_frame_rgb565 black_frame ;;
  p <- extract_frames (ffmpeg_starts sc) ;;
  set_ffmpeg_proc p ;;
  if negb p then ret tt
  else
    start_time <- monotonic ;;
    playback_loop (stream sc) (Session 0 start_time start_time) ;;
    monotonic ;;
    ret tt.

Definition play_video (sc : scenario) : M unit :=
  if negb (isfile sc) then ret tt
  else
    set_ffmpeg_proc false ;;
    try_finally
      (try_catch (fun _ => true)
         (set_spi true ;;
          call SpiOpen ;;
          with_request_lines (with_body sc))
         (fun _ => ret tt))
      (cleanup (running_at_cleanup sc)).

End Webm.

(* ================================================================== *)
(** ** Observations on traces *)

Definition is_transfer (e : event) : bool :=
  match e with WriteBytes _ _ => true | _ => false end.



(** The command bytes put on the bus, in order. *)
Definition opcodes (t : list event) : list Z :=
  flat_map (fun e => match e with WriteBytes Command bs => bs | _ => [] end) t.

(** The byte groups handed to the transport, in order. *)
Definition written (t : list event) : list (list Z) :=
  flat_map (fun e => match e with WriteBytes _ bs => [bs] | _ => [] end) t.

(** The data groups handed to the transport, in order. *)
Definition data_groups (t : list event) : list (list Z) :=
  flat_map (fun e => match e with WriteBytes Data bs => [bs] | _ => [] end) t.

(** The window [(x0, y0, x1, y1)] that the panel reads from a trace that
    carries exactly a column payload and a row payload. *)
Definition wire_window (t : list event) : option (Z * Z * Z * Z) :=
  match data_groups t with
  | [cols; rows] =>
      match decode_addr cols, decode_addr rows with
      | Some (x0, x1), Some (y0, y1) => Some (x0, y0, x1, y1)
      | _, _ => None
      end
  | _ => None
  end.



(** A 16-bit value, most significant byte first. *)
Definition hi_lo (v : Z) : list Z := [v / 256; v mod 256].


(** *** The mode-select discipline as an acceptor

    [Armed v]: the last event was a successful [SetValue DC v].
    [Streaming]: the last event was a data chunk of a group in progress
    (only when the transport splits a group, [chunked = true]).
    A write is accepted when the line was armed with its level just before,
    or when it continues the data group in progress. *)
Inductive dc_phase := Idle | Armed (level : bool) | Streaming.

Definition level_of (k : xfer) : bool :=
  match k with Command => false | Data => true end.

Definition dc_step (chunked : bool) (ph : dc_phase) (e : event)
  : option dc_phase :=
  match e with
  | SetValue DC v => Some (Armed v)
  | WriteBytes k _ =>
      match ph with
      | Armed v =>
          if Bool.eqb v (level_of k)
          then Some (match k with
                     | Data => if chunked then Streaming else Idle
                     | Command => Idle
                     end)
          else None
      | Streaming => match k with Data => Some Streaming | Command => None end
      | Idle => None
      end
  | _ => Some Idle
  end.

Fixpoint dc_run (chunked : bool) (ph : dc_phase) (t : list event) : bool :=
  match t with
  | [] => true
  | e :: t' =>
      match dc_step chunked ph e with
      | Some ph' => dc_run chunked ph' t'
      | None => false
      end
  end.

(** Accepted whatever happened before. *)
Definition dc_paired (chunked : bool) (t : list event) : Prop :=
  forall ph, dc_run chunked ph t = true.

(** *** Teardown, as the three operations of the design *)
Inductive teardown_op := StopSource | ReleaseLineController | CloseTransport.

Definition teardown_ops (t : list event) : list teardown_op :=
  flat_map (fun e => match e with
                     | Terminate => [StopSource]
                     | ReleaseLines => [ReleaseLineController]
                     | SpiClose => [CloseTransport]
                     | _ => []
                     end) t.

(** The calls of the [finally] block and of the [with] exit, as they are. *)
Definition is_teardown (e : event) : bool :=
  match e with
  | ReleaseLines | Terminate | Wait | Kill | CloseStdout | CloseStderr
  | SpiClose => true
  | _ => false
  end.

Definition teardown_calls (t : list event) : list event := filter is_teardown t.

Definition teardown_op_eqb (a b : teardown_op) : bool :=
  match a, b with
  | StopSource, StopSource | ReleaseLineController, ReleaseLineController
  | CloseTransport, CloseTransport => true
  | _, _ => false
  end.

(** [l] can be obtained from [order] by deleting elements. *)
Fixpoint subsequence (l order : list teardown_op) : bool :=
  match l, order with
  | [], _ => true
  | _ :: _, [] => false
  | a :: l', b :: order' =>
      if teardown_op_eqb a b then subsequence l' order'
      else subsequence l order'
  end.

(** Order in which the code tears down. *)
Definition code_teardown_order : list teardown_op :=
  [ReleaseLineController; StopSource; CloseTransport].

(** Order of the specification: stop the Frame Source, release the Line
    Controller, close the Serial Transport. *)
Definition spec_teardown_order : list teardown_op :=
  [StopSource; ReleaseLineController; CloseTransport].

(** Opcode order of the specification's [init()]: software reset,
    sleep-out, pixel format, orientation, the optional inversion toggle,
    normal mode, display on. *)
Definition spec_init_order (inversion : bool) : list Z :=
  [V4Pure.ST7789_SWRESET; V4Pure.ST7789_SLPOUT; V4Pure.ST7789_COLMOD;
   V4Pure.ST7789_MADCTL] ++
  (if inversion then [V4Pure.ST7789_INVON] else []) ++
  [V4Pure.ST7789_NORON; V4Pure.ST7789_DISPON].

(** Position and exception of the first call that raises among the next
    [n] calls. *)
Fixpoint first_fault (fs : list (option exn)) (n : nat) {struct n}
  : option (nat * exn) :=
  match n with
  | O => None
  | S n' =>
      match fs with
      | [] => None
      | Some x :: _ => Some (O, x)
      | None :: fs' =>
          match first_fault fs' n' with
          | Some (i, x) => Some (S i, x)
          | None => None
          end
      end
  end.

(** Every call made by [m] satisfies [P] on the trace, in every world. *)
Definition emits {A} (m : M A) (P : list event -> Prop) : Prop :=
  forall w, P (trace_of m w).

(** Trace properties that survive sequencing. *)
Record sequential (P : list event -> Prop) : Prop := {
  seq_nil : P [];
  seq_app : forall t1 t2, P t1 -> P t2 -> P (t1 ++ t2)
}.

(** *** Runs in which no call raises: [steady]

    [steady pre m a t]: from a world that satisfies [pre] and lets every
    call return, [m] returns [a], makes exactly the calls [t] and leaves
    the world as it was. *)
Definition steady {A} (pre : world -> Prop) (m : M A) (a : A)
    (t : list event) : Prop :=
  forall w, faults w = [] -> pre w -> m w = (Ok a, t, w).

Definition anywhere : world -> Prop := fun _ => True.
Definition spi_set : world -> Prop := fun w => spi w = true.

(** The world while the player is in its loop: calls return, the bus is
    open, the decoder has been started. *)
Definition playing (w : world) : Prop :=
  faults w = [] /\ spi w = true /\ ffmpeg_proc w = true.

(** [m] keeps the world inside [I]. *)
Definition preserves (I : world -> Prop) {A} (m : M A) : Prop :=
  forall w, I w -> I (world_after m w).

(** A trace without any teardown call. *)
Definition no_teardown (t : list event) : Prop := teardown_calls t = [].

(* ================================================================== *)
(** ** More of [display_st7789_v4.py]: construction and [clear] *)

Module V4Ext.
Import V4.





(** [clear(color)]: [Image.new('RGB', (width, height), color)] handed to
    [display_image]. *)
Definition clear (self : ST7789) (color : rgb) : M unit :=
  display_image self (repeat color (Z.to_nat (width self * height self))).

End V4Ext.

(** *** Further observations *)

(** Every fault the world holds is an [Exception] (no interrupt). *)
Definition exceptions_only (w : world) : Prop :=
  Forall (fun f => match f with
                   | Some e => is_Exception e = true
                   | None => True
                   end) (faults w).

(** The release and close calls of [ST7789.close], in order. *)
Definition handle_closes (t : list event) : list event :=
  filter (fun e => match e with
                   | RequestClose _ | SpiClose => true
                   | _ => false
                   end) t.

(** All data bytes handed to the transport, in order. *)
Definition data_bytes (t : list event) : list Z := concat (data_groups t).

(** The RGB565 fields read back from a wire value. *)
Definition red5 (v : Z) : Z := v / 2048.
Definition green6 (v : Z) : Z := (v / 32) mod 64.
Definition blue5 (v : Z) : Z := v mod 32.

(** A read that delivers exactly one frame. *)
Definition is_full_frame (rd : read_result) : bool :=
  match rd with
  | ReadBytes bs => Z.of_nat (length bs) =? Webm.frame_size
  | ReadRaises _ => false
  end.

(** The frames at the head of the stream, up to the first read that is not
    a full frame. *)
Fixpoint leading_frames (stream : list read_result) : list (list Z) :=
  match stream with
  | ReadBytes bs :: rest =>
      if Z.of_nat (length bs) =? Webm.frame_size
      then bs :: leading_frames rest else []
  | _ => []
  end.

(** The eight address bytes of the full-screen window of the player. *)
Definition full_screen_address : list Z :=
  WebmPure.addr_payload 0 (WebmPure.WIDTH - 1)
  ++ WebmPure.addr_payload 0 (WebmPure.HEIGHT - 1).

(** *** Predicates on runs used by the further properties *)

(** [m] raises nothing but [Exception]s when the world holds nothing else,
    and leaves such a world behind. *)
Definition tame {A} (m : M A) : Prop :=
  forall w, exceptions_only w ->
    (forall e, result_of m w = Err e -> is_Exception e = true) /\
    exceptions_only (world_after m w).

(** [m] returns when the world holds no interrupt. *)
Definition unfailing {A} (m : M A) : Prop :=
  forall w, exceptions_only w ->
    (exists a, result_of m w = Ok a) /\ exceptions_only (world_after m w).


(** [m] puts nothing on the bus, and leaves the global [spi] unset, when
    it starts with [spi] unset. *)
Definition unwritten {A} (m : M A) : Prop :=
  forall w, spi w = false ->
    written (trace_of m w) = [] /\ spi (world_after m w) = false.

(** The number of [stdout.read] calls in a trace. *)
Definition reads (t : list event) : nat :=
  length (filter (fun e => match e with ReadStdout => true | _ => false end) t).

(** [stdout.read(frame_size)] gives at most [frame_size] bytes. *)
Definition within_frame (rd : read_result) : Prop :=
  match rd with
  | ReadBytes bs => Z.of_nat (length bs) <= Webm.frame_size
  | ReadRaises _ => True
  end.

(** The calls of [display_frame_rgb565] when the bus is open and no call
    raises. *)
Definition frame_calls (px : list rgb) : list event :=
  [SetValue DC false; WriteBytes Command [0x2A]; SetValue DC true;
   WriteBytes Data (WebmPure.addr_payload 0 (WebmPure.WIDTH - 1));
   SetValue DC false; WriteBytes Command [0x2B]; SetValue DC true;
   WriteBytes Data (WebmPure.addr_payload 0 (WebmPure.HEIGHT - 1));
   SetValue DC false; WriteBytes Command [0x2C]; SetValue DC true] ++
  map (WriteBytes Data)
      (split_chunks WebmPure.SPI_CHUNK_SIZE (WebmPure.frame_bytes px)).

(** An exception that leaves [m] was raised by its last call, and [ok]
    holds of that call and the exception. *)
Definition escapes {A} (ok : event -> exn -> Prop) (m : M A) : Prop :=
  forall w e, result_of m w = Err e ->
    exists pre c, trace_of m w = pre ++ [c; Raised e] /\ ok c e.

(** The calls of the [finally] block of [play_video] that are not guarded,
    with what they can let through: [wait] only what its two handlers do
    not catch. *)
Definition cleanup_raise (c : event) (e : exn) : Prop :=
  match c with
  | Terminate | Kill | CloseStdout | CloseStderr | SpiClose => True
  | Wait => e = KeyboardInterrupt
  | _ => False
  end.

(* ================================================================== *)
(** * Properties *)

(** ** Colour conversion *)

Section Bytes.
Import Numpy.

(** A decidable property of one byte is settled by trying the 256 values. *)
Lemma uint8_cases (P : Z -> bool) :
  forallb P (map Z.of_nat (seq 0 256)) = true ->
  forall z, is_uint8 z -> P z = true.
Proof.
  intros H z [Hlo Hhi]. rewrite forallb_forall in H. apply H.
  apply in_map_iff. exists (Z.to_nat z). split; [lia|].
  apply in_seq. lia.
Qed.

Lemma uint16_lor a b : uint16 (Z.lor a b) = Z.lor (uint16 a) (uint16 b).
Proof.
  unfold uint16. change 65536 with (2 ^ 16).
  rewrite <- !Z.land_ones by lia. apply Z.land_lor_distr_l.
Qed.

Lemma uint16_idem a : uint16 (uint16 a) = uint16 a.
Proof. unfold uint16. apply Z.mod_mod. lia. Qed.

Lemma uint16_range a : 0 <= uint16 a < 65536.
Proof. unfold uint16. apply Z.mod_pos_bound. lia. Qed.

Lemma or16_fixed a b :
  uint16 a = a -> uint16 b = b ->
  or16 a b = Z.lor a b /\ uint16 (or16 a b) = or16 a b.
Proof.
  intros Ha Hb. unfold or16. rewrite uint16_idem, uint16_lor, Ha, Hb. auto.
Qed.

(** The red field: the masked shift of v4, the truncating shift of the
    player and the unbounded formula agree, and nothing wraps. *)
Lemma red_field r :
  is_uint8 r ->
  let f := Z.shiftl (Z.land r 0xF8) 8 in
  shl16 (and16 (uint16 r) 0xF8) 8 = f /\
  shl16 (shr16 (uint16 r) 3) 11 = f /\
  uint16 f = f.
Proof.
  intros Hr.
  pose proof (uint8_cases
    (fun r => let f := Z.shiftl (Z.land r 0xF8) 8 in
              (shl16 (and16 (uint16 r) 0xF8) 8 =? f) &&
              (shl16 (shr16 (uint16 r) 3) 11 =? f) &&
              (uint16 f =? f))) as H.
  specialize (H eq_refl r Hr). cbv zeta in H.
  apply andb_true_iff in H as [H H3]. apply andb_true_iff in H as [H1 H2].
  cbv zeta. rewrite Z.eqb_eq in H1, H2, H3. auto.
Qed.

Lemma green_field g :
  is_uint8 g ->
  let f := Z.shiftl (Z.land g 0xFC) 3 in
  shl16 (and16 (uint16 g) 0xFC) 3 = f /\
  shl16 (shr16 (uint16 g) 2) 5 = f /\
  uint16 f = f.
Proof.
  intros Hg.
  pose proof (uint8_cases
    (fun g => let f := Z.shiftl (Z.land g 0xFC) 3 in
              (shl16 (and16 (uint16 g) 0xFC) 3 =? f) &&
              (shl16 (shr16 (uint16 g) 2) 5 =? f) &&
              (uint16 f =? f))) as H.
  specialize (H eq_refl g Hg). cbv zeta in H.
  apply andb_true_iff in H as [H H3]. apply andb_true_iff in H as [H1 H2].
  cbv zeta. rewrite Z.eqb_eq in H1, H2, H3. auto.
Qed.

Lemma blue_field b :
  is_uint8 b ->
  let f := Z.shiftr (Z.land b 0xF8) 3 in
  shr16 (and16 (uint16 b) 0xF8) 3 = f /\
  shr16 (uint16 b) 3 = f /\
  uint16 f = f.
Proof.
  intros Hb.
  pose proof (uint8_cases
    (fun b => let f := Z.shiftr (Z.land b 0xF8) 3 in
              (shr16 (and16 (uint16 b) 0xF8) 3 =? f) &&
              (shr16 (uint16 b) 3 =? f) &&
              (uint16 f =? f))) as H.
  specialize (H eq_refl b Hb). cbv zeta in H.
  apply andb_true_iff in H as [H H3]. apply andb_true_iff in H as [H1 H2].
  cbv zeta. rewrite Z.eqb_eq in H1, H2, H3. auto.
Qed.

Lemma v4_rgb565_spec r g b :
  is_uint8 r -> is_uint8 g -> is_uint8 b ->
  V4Pure.rgb565 r g b = spec_wire16 r g b.
Proof.
  intros Hr Hg Hb. unfold V4Pure.rgb565, spec_wire16. cbv zeta.
  destruct (red_field r Hr) as (-> & _ & Fr).
  destruct (green_field g Hg) as (-> & _ & Fg).
  destruct (blue_field b Hb) as (-> & _ & Fb).
  destruct (or16_fixed _ _ Fr Fg) as [E1 F1].
  destruct (or16_fixed _ _ F1 Fb) as [E2 _].
  rewrite E2, E1. reflexivity.
Qed.

Lemma webm_rgb565_spec r g b :
  is_uint8 r -> is_uint8 g -> is_uint8 b ->
  WebmPure.rgb565 r g b = spec_wire16 r g b.
Proof.
  intros Hr Hg Hb. unfold WebmPure.rgb565, spec_wire16. cbv zeta.
  destruct (red_field r Hr) as (_ & -> & Fr).
  destruct (green_field g Hg) as (_ & -> & Fg).
  destruct (blue_field b Hb) as (_ & -> & Fb).
  destruct (or16_fixed _ _ Fr Fg) as [E1 F1].
  destruct (or16_fixed _ _ F1 Fb) as [E2 _].
  rewrite E2, E1. reflexivity.
Qed.

Lemma v4_rgb565_range r g b : 0 <= V4Pure.rgb565 r g b < 65536.
Proof. unfold V4Pure.rgb565. cbv zeta. unfold or16 at 1. apply uint16_range. Qed.

Lemma webm_rgb565_range r g b : 0 <= WebmPure.rgb565 r g b < 65536.
Proof. unfold WebmPure.rgb565. cbv zeta. unfold or16 at 1. apply uint16_range. Qed.

(** On a little-endian host, swapping and then dumping in native order
    puts the high byte first. *)
Lemma byteswap_native_bytes v :
  0 <= v < 65536 ->
  tobytes native (byteswap v) = [v / 256; v mod 256].
Proof.
  intros Hv. unfold tobytes, native, byteswap, uint16.
  assert (Hlo : 0 <= v mod 256 < 256) by (apply Z.mod_pos_bound; lia).
  assert (Hhi : 0 <= v / 256 < 256).
  { split; [apply Z.div_pos; lia | apply Z.div_lt_upper_bound; lia]. }
  rewrite (Z.mod_small (v mod 256 * 256 + v / 256)) by lia.
  rewrite Z.add_comm, Z.mod_add by lia.
  rewrite (Z.mod_small (v / 256)) by lia.
  rewrite Z.div_add by lia.
  rewrite (Z.div_small (v / 256)) by lia.
  reflexivity.
Qed.

Lemma v4_pixel_bytes_hi_lo p :
  V4Pure.pixel_bytes p =
  [V4Pure.rgb565 (red p) (green p) (blue p) / 256;
   V4Pure.rgb565 (red p) (green p) (blue p) mod 256].
Proof. apply byteswap_native_bytes, v4_rgb565_range. Qed.

Lemma webm_pixel_bytes_hi_lo p :
  WebmPure.pixel_bytes p =
  [WebmPure.rgb565 (red p) (green p) (blue p) / 256;
   WebmPure.rgb565 (red p) (green p) (blue p) mod 256].
Proof.
  unfold WebmPure.pixel_bytes, tobytes.
  pose proof (webm_rgb565_range (red p) (green p) (blue p)).
  unfold uint16. rewrite Z.mod_small by lia. reflexivity.
Qed.

End Bytes.

(* ================================================================== *)
(** ** Reasoning about runs *)

Section Runs.

Lemma trace_bind {A B} (m : M A) (f : A -> M B) w :
  trace_of (bind m f) w =
  match result_of m w with
  | Ok a => trace_of m w ++ trace_of (f a) (world_after m w)
  | Err _ => trace_of m w
  end.
Proof.
  unfold trace_of, result_of, world_after, bind.
  destruct (m w) as [[[a|e] t] w1]; simpl; [|reflexivity].
  destruct (f a w1) as [[r t2] w2]. reflexivity.
Qed.

Lemma trace_call e w :
  trace_of (call e) w = [e] \/ exists x, trace_of (call e) w = [e; Raised x].
Proof.
  unfold trace_of, call. destruct (next_fault w) as [[x|] w1]; simpl; eauto.
Qed.

(** *** Properties of every run: [emits] *)

Variable P : list event -> Prop.
Hypothesis P_seq : sequential P.

Lemma emits_ret {A} (a : A) : emits (ret a) P.
Proof. intros w. apply (seq_nil P P_seq). Qed.

Lemma emits_raise {A} e : emits (@raise A e) P.
Proof. intros w. apply (seq_nil P P_seq). Qed.

Lemma emits_monotonic : emits monotonic P.
Proof.
  intros w. unfold trace_of, monotonic.
  destruct (clock w); apply (seq_nil P P_seq).
Qed.

Lemma emits_get_spi : emits get_spi P.
Proof. intros w. apply (seq_nil P P_seq). Qed.

Lemma emits_set_spi b : emits (set_spi b) P.
Proof. intros w. apply (seq_nil P P_seq). Qed.

Lemma emits_get_ffmpeg_proc : emits get_ffmpeg_proc P.
Proof. intros w. apply (seq_nil P P_seq). Qed.

Lemma emits_set_ffmpeg_proc b : emits (set_ffmpeg_proc b) P.
Proof. intros w. apply (seq_nil P P_seq). Qed.

Lemma emits_bind {A B} (m : M A) (f : A -> M B) :
  emits m P -> (forall a, emits (f a) P) -> emits (bind m f) P.
Proof.
  intros Hm Hf w. rewrite trace_bind.
  destruct (result_of m w); [|apply Hm].
  apply (seq_app P P_seq); [apply Hm | apply Hf].
Qed.

Lemma emits_try_catch {A} c (body : M A) h :
  emits body P -> (forall e, emits (h e) P) -> emits (try_catch c body h) P.
Proof.
  intros Hb Hh w. specialize (Hb w). unfold trace_of, try_catch in *.
  destruct (body w) as [[[a|e] t] w1]; simpl in *; [exact Hb|].
  destruct (c e); [|exact Hb].
  specialize (Hh e w1). unfold trace_of in Hh.
  destruct (h e w1) as [[r t2] w2]. simpl in *.
  apply (seq_app P P_seq); assumption.
Qed.

Lemma emits_try_except {A} (body : M A) h :
  emits body P -> (forall e, emits (h e) P) -> emits (try_except body h) P.
Proof. apply emits_try_catch. Qed.

Lemma emits_try_finally {A} (body : M A) fin :
  emits body P -> emits fin P -> emits (try_finally body fin) P.
Proof.
  intros Hb Hf w. specialize (Hb w). unfold trace_of, try_finally in *.
  destruct (body w) as [[r t] w1]. specialize (Hf w1).
  unfold trace_of in Hf.
  destruct (fin w1) as [[[u|e] t2] w2]; simpl in *;
    apply (seq_app P P_seq); assumption.
Qed.

Lemma emits_call e :
  P [e] -> (forall x, P [e; Raised x]) -> emits (call e) P.
Proof.
  intros H1 H2 w. destruct (trace_call e w) as [-> | [x ->]]; auto.
Qed.

End Runs.

Section Steady.

Variable pre : world -> Prop.

Lemma steady_ret {A} (a : A) : steady pre (ret a) a [].
Proof. intros w _ _. reflexivity. Qed.

Lemma steady_call e : steady pre (call e) tt [e].
Proof.
  intros w Hw _. unfold call, next_fault. rewrite Hw. reflexivity.
Qed.

Lemma steady_bind {A B} (m : M A) (f : A -> M B) a b t1 t2 :
  steady pre m a t1 -> steady pre (f a) b t2 ->
  steady pre (bind m f) b (t1 ++ t2).
Proof.
  intros Hm Hf w Hw Hp. unfold bind.
  rewrite (Hm w Hw Hp), (Hf w Hw Hp). reflexivity.
Qed.

Lemma steady_seq {A B} (m : M A) (f : A -> M B) a b t1 t2 t :
  steady pre m a t1 -> t = t1 ++ t2 -> steady pre (f a) b t2 ->
  steady pre (bind m f) b t.
Proof. intros Hm -> Hf. apply steady_bind with (a := a); assumption. Qed.

Lemma steady_try_catch {A} c (body : M A) h a t :
  steady pre body a t -> steady pre (try_catch c body h) a t.
Proof.
  intros Hb w Hw Hp. unfold try_catch. rewrite (Hb w Hw Hp). reflexivity.
Qed.

Lemma steady_try_except {A} (body : M A) h a t :
  steady pre body a t -> steady pre (try_except body h) a t.
Proof. apply steady_try_catch. Qed.

Lemma steady_try_finally {A} (body : M A) fin a t1 t2 :
  steady pre body a t1 -> steady pre fin tt t2 ->
  steady pre (try_finally body fin) a (t1 ++ t2).
Proof.
  intros Hb Hf w Hw Hp. unfold try_finally.
  rewrite (Hb w Hw Hp), (Hf w Hw Hp). reflexivity.
Qed.

End Steady.

Lemma steady_get_spi :
  steady (fun w => spi w = true) get_spi true [].
Proof. intros w _ Hs. unfold get_spi. rewrite Hs. reflexivity. Qed.

Lemma steady_trace {A} pre (m : M A) a t w :
  steady pre m a t -> faults w = [] -> pre w ->
  trace_of m w = t /\ result_of m w = Ok a /\ world_after m w = w.
Proof.
  intros H Hw Hp. unfold trace_of, result_of, world_after.
  rewrite (H w Hw Hp). auto.
Qed.

(* ================================================================== *)
(** ** Address payloads *)

Lemma land_255 x : Z.land x 0xFF = x mod 256.
Proof. change 0xFF with (Z.ones 8). rewrite Z.land_ones by lia. reflexivity. Qed.

Lemma addr_payload_bytes a b :
  forallb in_byte_range (V4Pure.addr_payload a b) = true.
Proof.
  unfold V4Pure.addr_payload, in_byte_range. cbn [forallb].
  rewrite !land_255.
  pose proof (Z.mod_pos_bound (Z.shiftr a 8) 256 eq_refl).
  pose proof (Z.mod_pos_bound a 256 eq_refl).
  pose proof (Z.mod_pos_bound (Z.shiftr b 8) 256 eq_refl).
  pose proof (Z.mod_pos_bound b 256 eq_refl).
  repeat (apply andb_true_intro; split); try reflexivity;
    first [apply Z.leb_le | apply Z.ltb_lt]; lia.
Qed.

Lemma hi_lo_roundtrip a :
  0 <= a < 65536 ->
  Z.land (Z.shiftr a 8) 0xFF * 256 + Z.land a 0xFF = a.
Proof.
  intros Ha. rewrite !land_255, Z.shiftr_div_pow2 by lia.
  change (2 ^ 8) with 256.
  assert (0 <= a / 256 < 256).
  { split; [apply Z.div_pos; lia | apply Z.div_lt_upper_bound; lia]. }
  rewrite (Z.mod_small (a / 256)) by lia.
  pose proof (Z.div_mod a 256). lia.
Qed.

Lemma decode_addr_payload a b :
  0 <= a < 65536 -> 0 <= b < 65536 ->
  decode_addr (V4Pure.addr_payload a b) = Some (a, b).
Proof.
  intros Ha Hb. unfold decode_addr, V4Pure.addr_payload.
  rewrite !hi_lo_roundtrip by assumption. reflexivity.
Qed.



(* ================================================================== *)
(** ** The mode-select discipline *)

Lemma dc_run_app c ph t1 t2 :
  dc_run c ph t1 = true -> dc_paired c t2 -> dc_run c ph (t1 ++ t2) = true.
Proof.
  revert ph. induction t1 as [|e t1 IH]; intros ph H1 H2; simpl in *.
  - apply H2.
  - destruct (dc_step c ph e); [auto | discriminate].
Qed.

Lemma dc_paired_sequential c : sequential (dc_paired c).
Proof.
  split.
  - intros ph. reflexivity.
  - intros t1 t2 H1 H2 ph. apply dc_run_app; auto.
Qed.


Lemma trace_try_catch_silent {A} c (body : M A) (a : A) w :
  trace_of (try_catch c body (fun _ => ret a)) w = trace_of body w.
Proof.
  unfold trace_of, try_catch.
  destruct (body w) as [[[v|e] t] w1]; simpl; [reflexivity|].
  destruct (c e); simpl; [apply app_nil_r | reflexivity].
Qed.

(** The possible traces of a call followed, if it returns, by [k]. *)
Lemma trace_call_then {A} e (k : M A) w :
  (exists x, trace_of (call e ;; k) w = [e; Raised x]) \/
  (exists w1, trace_of (call e ;; k) w = e :: trace_of k w1).
Proof.
  unfold trace_of, bind, call.
  destruct (next_fault w) as [[x|] w1]; simpl; [eauto|].
  right. exists w1. destruct (k w1) as [[r t2] w2]. reflexivity.
Qed.

Ltac dc_cases :=
  let ph := fresh "ph" in
  intros ph; destruct ph as [|[]|]; reflexivity.

Module V4Facts.
Import V4.

Lemma command_paired self cmd : emits (command self cmd) (dc_paired false).
Proof.
  intros w. unfold command.
  destruct (negb (_dc_request self) || negb (_spi self)); [dc_cases|].
  unfold try_except. rewrite trace_try_catch_silent.
  destruct (trace_call_then (SetValue DC false)
              (call (WriteBytes Command [cmd])) w) as [[x ->]|[w1 ->]];
    [dc_cases|].
  destruct (trace_call (WriteBytes Command [cmd]) w1) as [-> | [x ->]];
    dc_cases.
Qed.

Lemma data_paired self d : emits (data self d) (dc_paired false).
Proof.
  intros w. unfold data.
  destruct (negb (_dc_request self) || negb (_spi self)); [dc_cases|].
  unfold try_except. rewrite trace_try_catch_silent.
  match goal with |- dc_paired _ (trace_of (call ?e ;; ?k) w) =>
    destruct (trace_call_then e k w) as [[x ->]|[w1 ->]] end;
    [dc_cases|].
  destruct d as [v|bs|l].
  - destruct (trace_call (WriteBytes Data [v]) w1) as [-> | [x ->]]; dc_cases.
  - destruct (trace_call (WriteBytes Data bs) w1) as [-> | [x ->]]; dc_cases.
  - destruct (forallb in_byte_range l).
    + destruct (trace_call (WriteBytes Data l) w1) as [-> | [x ->]]; dc_cases.
    + dc_cases.
Qed.

Lemma sleep_paired c d : emits (call (Sleep d)) (dc_paired c).
Proof. apply emits_call; [|intros x]; dc_cases. Qed.

Lemma init_display_paired self : emits (init_display self) (dc_paired false).
Proof.
  unfold init_display.
  repeat (apply (emits_bind _ (dc_paired_sequential false));
          [first [apply command_paired | apply data_paired
                 | apply sleep_paired] | intros _]).
  apply sleep_paired.
Qed.

Lemma set_window_paired self x0 y0 x1 y1 :
  emits (set_window self x0 y0 x1 y1) (dc_paired false).
Proof.
  unfold set_window.
  destruct (clipped_window _ _ _ _ _ _) as [[[a b] c] d].
  repeat (apply (emits_bind _ (dc_paired_sequential false));
          [first [apply command_paired | apply data_paired] | intros _]).
  apply command_paired.
Qed.

Lemma display_image_paired self px :
  emits (display_image self px) (dc_paired false).
Proof.
  unfold display_image.
  apply (emits_bind _ (dc_paired_sequential false));
    [apply set_window_paired | intros _; apply data_paired].
Qed.

End V4Facts.

Lemma trace_get_spi {A} (f : bool -> M A) w :
  trace_of (s <- get_spi ;; f s) w = trace_of (f (spi w)) w.
Proof.
  unfold trace_of, bind, get_spi.
  destruct (f (spi w) w) as [[r t] w1]. reflexivity.
Qed.

Module WebmFacts.
Import Webm.

Lemma one_byte_chunk c : split_chunks SPI_CHUNK_SIZE [c] = [[c]].
Proof. reflexivity. Qed.

Lemma trace_spi_write k l w :
  trace_of (spi_write k l) w =
  if spi w then trace_of (write_each k (split_chunks SPI_CHUNK_SIZE l)) w
  else [].
Proof.
  unfold spi_write. rewrite trace_get_spi.
  destruct (spi w); simpl; [|reflexivity].
  unfold try_except. apply trace_try_catch_silent.
Qed.

(** Chunks of one data group: accepted once the line is armed high, and
    while the group is in progress. *)
Lemma write_each_data_run cs : forall w ph,
  ph = Armed true \/ ph = Streaming ->
  dc_run true ph (trace_of (write_each Data cs) w) = true.
Proof.
  induction cs as [|c cs IH]; intros w ph Hph; [reflexivity|].
  cbn [write_each].
  destruct (trace_call_then (WriteBytes Data c) (write_each Data cs) w)
    as [[x ->]|[w1 ->]].
  - destruct Hph as [-> | ->]; reflexivity.
  - assert (dc_step true ph (WriteBytes Data c) = Some Streaming) as E
      by (destruct Hph as [-> | ->]; reflexivity).
    cbn [dc_run]. rewrite E. apply IH. auto.
Qed.

Lemma write_command_paired cmd : emits (write_command cmd) (dc_paired true).
Proof.
  intros w. unfold write_command.
  match goal with |- dc_paired _ (trace_of (call ?e ;; ?k) w) =>
    destruct (trace_call_then e k w) as [[x ->]|[w1 ->]] end;
    [dc_cases|].
  rewrite trace_spi_write, one_byte_chunk.
  destruct (spi w1); [|dc_cases].
  cbn [write_each].
  destruct (trace_call_then (WriteBytes Command [cmd]) (ret tt) w1)
    as [[x ->]|[w2 ->]]; dc_cases.
Qed.

Lemma write_data_paired d : emits (write_data d) (dc_paired true).
Proof.
  intros w. unfold write_data.
  match goal with |- dc_paired _ (trace_of (call ?e ;; ?k) w) =>
    destruct (trace_call_then e k w) as [[x ->]|[w1 ->]] end;
    [dc_cases|].
  assert (dc_run true (Armed true)
            (trace_of match d with
                      | PyInt v => spi_write Data [v]
                      | PyBytes bs => spi_write Data bs
                      | PyList l => spi_write Data l
                      end w1) = true) as H.
  { destruct d; rewrite trace_spi_write; destruct (spi w1);
      try reflexivity; apply write_each_data_run; auto. }
  intros ph. destruct ph as [|[]|]; exact H.
Qed.

Lemma quiet_call_paired e :
  (forall ph, dc_step true ph e = Some Idle) ->
  emits (call e) (dc_paired true).
Proof.
  intros He. apply emits_call; [|intros x]; intros ph; cbn [dc_run];
    rewrite He; reflexivity.
Qed.

Lemma reset_display_paired : emits reset_display (dc_paired true).
Proof.
  unfold reset_display.
  repeat (apply (emits_bind _ (dc_paired_sequential true));
          [apply quiet_call_paired; reflexivity | intros _]).
  apply quiet_call_paired; reflexivity.
Qed.

Lemma player_init_paired : emits init_display (dc_paired true).
Proof.
  unfold init_display.
  repeat (apply (emits_bind _ (dc_paired_sequential true));
          [first [apply reset_display_paired | apply write_command_paired
                 | apply write_data_paired
                 | apply quiet_call_paired; reflexivity] | intros _]).
  apply quiet_call_paired; reflexivity.
Qed.

Lemma set_address_window_paired x0 y0 x1 y1 :
  emits (set_address_window x0 y0 x1 y1) (dc_paired true).
Proof.
  unfold set_address_window.
  repeat (apply (emits_bind _ (dc_paired_sequential true));
          [first [apply write_command_paired | apply write_data_paired]
          | intros _]).
  apply write_command_paired.
Qed.

Lemma display_frame_rgb565_paired px :
  emits (display_frame_rgb565 px) (dc_paired true).
Proof.
  unfold display_frame_rgb565.
  apply (emits_bind _ (dc_paired_sequential true));
    [apply set_address_window_paired | intros _; apply write_data_paired].
Qed.

End WebmFacts.

(* ================================================================== *)
(** ** Runs in which no call raises *)

Module V4Steady.
Import V4.

Section Ready.
Variable self : ST7789.
Hypothesis spi_held : _spi self = true.
Hypothesis dc_held : _dc_request self = true.

Lemma command_steady cmd :
  steady anywhere (command self cmd) tt
    [SetValue DC false; WriteBytes Command [cmd]].
Proof.
  unfold command. rewrite spi_held, dc_held. cbn [negb orb].
  apply steady_try_except.
  eapply steady_seq; [apply steady_call | reflexivity | apply steady_call].
Qed.

Lemma data_int_steady v :
  steady anywhere (data self (PyInt v)) tt
    [SetValue DC true; WriteBytes Data [v]].
Proof.
  unfold data. rewrite spi_held, dc_held. cbn [negb orb].
  apply steady_try_except.
  eapply steady_seq; [apply steady_call | reflexivity | apply steady_call].
Qed.

Lemma data_bytes_steady bs :
  steady anywhere (data self (PyBytes bs)) tt
    [SetValue DC true; WriteBytes Data bs].
Proof.
  unfold data. rewrite spi_held, dc_held. cbn [negb orb].
  apply steady_try_except.
  eapply steady_seq; [apply steady_call | reflexivity | apply steady_call].
Qed.

Lemma data_list_steady l :
  forallb in_byte_range l = true ->
  steady anywhere (data self (PyList l)) tt
    [SetValue DC true; WriteBytes Data l].
Proof.
  intros Hl. unfold data. rewrite spi_held, dc_held, Hl. cbn [negb orb].
  apply steady_try_except.
  eapply steady_seq; [apply steady_call | reflexivity | apply steady_call].
Qed.

Lemma init_display_steady :
  steady anywhere (init_display self) tt
    [SetValue DC false; WriteBytes Command [0x01]; Sleep 0.150;
     SetValue DC false; WriteBytes Command [0x11]; Sleep 0.500;
     SetValue DC false; WriteBytes Command [0x36];
     SetValue DC true; WriteBytes Data [0x60];
     SetValue DC false; WriteBytes Command [0x3A];
     SetValue DC true; WriteBytes Data [0x55];
     SetValue DC false; WriteBytes Command [0x21];
     SetValue DC false; WriteBytes Command [0x13]; Sleep 0.01;
     SetValue DC false; WriteBytes Command [0x29]; Sleep 0.100].
Proof.
  unfold init_display.
  repeat (eapply steady_seq;
          [first [apply command_steady | apply data_int_steady
                 | apply steady_call] | reflexivity |]).
  apply steady_call.
Qed.

Lemma set_window_steady x0 y0 x1 y1 :
  steady anywhere (set_window self x0 y0 x1 y1) tt
    (match clipped_window (width self) (height self) x0 y0 x1 y1 with
     | (cx0, cy0, cx1, cy1) =>
         [SetValue DC false; WriteBytes Command [0x2A];
          SetValue DC true; WriteBytes Data (addr_payload cx0 cx1);
          SetValue DC false; WriteBytes Command [0x2B];
          SetValue DC true; WriteBytes Data (addr_payload cy0 cy1);
          SetValue DC false; WriteBytes Command [0x2C]]
     end).
Proof.
  unfold set_window.
  destruct (clipped_window _ _ _ _ _ _) as [[[a b] c] d].
  repeat (eapply steady_seq;
          [first [apply command_steady
                 | apply data_list_steady, addr_payload_bytes]
          | reflexivity |]).
  apply command_steady.
Qed.

Lemma display_image_steady px :
  steady anywhere (display_image self px) tt
    (match clipped_window (width self) (height self) 0 0 None None with
     | (cx0, cy0, cx1, cy1) =>
         [SetValue DC false; WriteBytes Command [0x2A];
          SetValue DC true; WriteBytes Data (addr_payload cx0 cx1);
          SetValue DC false; WriteBytes Command [0x2B];
          SetValue DC true; WriteBytes Data (addr_payload cy0 cy1);
          SetValue DC false; WriteBytes Command [0x2C];
          SetValue DC true; WriteBytes Data (frame_bytes px)]
     end).
Proof.
  unfold display_image.
  pose proof (set_window_steady 0 0 None None) as Hw.
  destruct (clipped_window _ _ _ _ _ _) as [[[a b] c] d].
  eapply steady_seq; [exact Hw | reflexivity | apply data_bytes_steady].
Qed.

End Ready.


End V4Steady.

Module WebmSteady.
Import Webm.

Lemma write_each_steady pre k cs :
  steady pre (write_each k cs) tt (map (WriteBytes k) cs).
Proof.
  induction cs as [|c cs IH]; [apply steady_ret|].
  cbn [write_each map].
  eapply steady_seq; [apply steady_call | reflexivity | exact IH].
Qed.

Lemma spi_write_steady k l :
  steady spi_set (spi_write k l) tt
    (map (WriteBytes k) (split_chunks SPI_CHUNK_SIZE l)).
Proof.
  unfold spi_write.
  eapply steady_seq; [apply steady_get_spi | reflexivity |].
  cbn [negb]. apply steady_try_except, write_each_steady.
Qed.

Lemma write_command_steady cmd :
  steady spi_set (write_command cmd) tt
    [SetValue DC false; WriteBytes Command [cmd]].
Proof.
  unfold write_command.
  eapply steady_seq; [apply steady_call | reflexivity |].
  apply (spi_write_steady Command [cmd]).
Qed.

Lemma write_data_int_steady v :
  steady spi_set (write_data (PyInt v)) tt
    [SetValue DC true; WriteBytes Data [v]].
Proof.
  unfold write_data.
  eapply steady_seq; [apply steady_call | reflexivity |].
  apply (spi_write_steady Data [v]).
Qed.

Lemma write_data_steady d :
  steady spi_set (write_data d) tt
    (SetValue DC true ::
     map (WriteBytes Data)
         (split_chunks SPI_CHUNK_SIZE
            match d with PyInt v => [v] | PyBytes bs => bs | PyList l => l end)).
Proof.
  unfold write_data.
  eapply steady_seq; [apply steady_call | reflexivity |].
  destruct d; apply spi_write_steady.
Qed.

Lemma reset_display_steady pre :
  steady pre reset_display tt
    [SetValue RST false; Sleep 0.1; SetValue RST true; Sleep 0.1].
Proof.
  unfold reset_display.
  repeat (eapply steady_seq; [apply steady_call | reflexivity |]).
  apply steady_call.
Qed.

Lemma player_init_steady :
  steady spi_set init_display tt
    [SetValue RST false; Sleep 0.1; SetValue RST true; Sleep 0.1;
     SetValue DC false; WriteBytes Command [0x11]; Sleep 0.12;
     SetValue DC false; WriteBytes Command [0x3A];
     SetValue DC true; WriteBytes Data [0x55];
     SetValue DC false; WriteBytes Command [0x36];
     SetValue DC true; WriteBytes Data [0x60];
     SetValue DC false; WriteBytes Command [0x29]; Sleep 0.1].
Proof.
  unfold init_display.
  repeat (eapply steady_seq;
          [first [apply reset_display_steady | apply write_command_steady
                 | apply write_data_int_steady | apply steady_call]
          | reflexivity |]).
  apply steady_call.
Qed.

Lemma set_address_window_steady x0 y0 x1 y1 :
  steady spi_set (set_address_window x0 y0 x1 y1) tt
    ([SetValue DC false; WriteBytes Command [0x2A]; SetValue DC true] ++
     map (WriteBytes Data) (split_chunks SPI_CHUNK_SIZE (addr_payload x0 x1)) ++
     [SetValue DC false; WriteBytes Command [0x2B]; SetValue DC true] ++
     map (WriteBytes Data) (split_chunks SPI_CHUNK_SIZE (addr_payload y0 y1)) ++
     [SetValue DC false; WriteBytes Command [0x2C]]).
Proof.
  unfold set_address_window.
  eapply steady_seq; [apply write_command_steady | reflexivity |].
  eapply steady_seq; [apply write_data_steady | reflexivity |].
  eapply steady_seq; [apply write_command_steady | reflexivity |].
  eapply steady_seq; [apply write_data_steady | reflexivity |].
  apply write_command_steady.
Qed.

End WebmSteady.

(* ================================================================== *)
(** ** Chunking *)

Section Chunks.
Variable size : nat.
Hypothesis size_pos : (0 < size)%nat.

Lemma range_count_nil : ((0 + size - 1) / size = 0)%nat.
Proof. apply Nat.div_small. lia. Qed.

Lemma range_count_step len :
  (0 < len)%nat ->
  ((len + size - 1) / size = S ((len - size + size - 1) / size))%nat.
Proof.
  intros Hlen.
  destruct (Nat.le_gt_cases size len) as [Hge | Hlt].
  - replace (len + size - 1)%nat with ((len - size + size - 1) + 1 * size)%nat
      by lia.
    rewrite Nat.div_add by lia. lia.
  - replace (len - size)%nat with 0%nat by lia.
    rewrite range_count_nil.
    replace (len + size - 1)%nat with ((len - 1) + 1 * size)%nat by lia.
    rewrite Nat.div_add by lia. rewrite Nat.div_small by lia. reflexivity.
Qed.

Lemma split_chunks_nil : split_chunks size [] = [].
Proof.
  unfold split_chunks, py_range_step. cbn [length].
  rewrite range_count_nil. reflexivity.
Qed.

Lemma split_chunks_step (l : list Z) :
  l <> [] ->
  split_chunks size l = firstn size l :: split_chunks size (skipn size l).
Proof.
  intros Hl. unfold split_chunks, py_range_step.
  assert (0 < length l)%nat by (destruct l; [congruence | simpl; lia]).
  rewrite range_count_step by assumption.
  rewrite length_skipn.
  cbn [seq map]. f_equal.
  - unfold py_slice. cbn [Nat.mul Nat.add skipn].
    f_equal. lia.
  - rewrite <- seq_shift, !map_map. apply map_ext. intros k.
    unfold py_slice. rewrite skipn_skipn. f_equal; [lia|].
    f_equal. lia.
Qed.

Lemma split_chunks_spec_aux : forall fuel (l : list Z),
  (length l <= fuel)%nat ->
  concat (split_chunks size l) = l /\
  Forall (fun c => (0 < length c <= size)%nat) (split_chunks size l).
Proof.
  induction fuel as [|fuel IH]; intros l Hlen.
  - destruct l; [|simpl in Hlen; lia].
    rewrite split_chunks_nil. split; [reflexivity | constructor].
  - destruct l as [|z l']; [rewrite split_chunks_nil; split;
                            [reflexivity | constructor]|].
    rewrite split_chunks_step by discriminate.
    destruct (IH (skipn size (z :: l'))) as [Hc Hf].
    { rewrite length_skipn. cbn [length] in Hlen |- *. lia. }
    split.
    + cbn [concat]. rewrite Hc. apply firstn_skipn.
    + constructor; [|exact Hf].
      rewrite length_firstn. cbn [length]. lia.
Qed.

(** The chunks are the payload cut in order, each of 1..size bytes. *)
Lemma split_chunks_spec (l : list Z) :
  concat (split_chunks size l) = l /\
  Forall (fun c => (0 < length c <= size)%nat) (split_chunks size l).
Proof. apply (split_chunks_spec_aux (length l)). lia. Qed.

End Chunks.

(** What [write_each] does in any world: it writes the chunks in order up
    to and including the first one that raises. *)
Lemma write_each_run k cs : forall w,
  trace_of (Webm.write_each k cs) w =
    match first_fault (faults w) (length cs) with
    | None => map (WriteBytes k) cs
    | Some (i, x) => map (WriteBytes k) (firstn (S i) cs) ++ [Raised x]
    end /\
  result_of (Webm.write_each k cs) w =
    match first_fault (faults w) (length cs) with
    | None => Ok tt
    | Some (_, x) => Err x
    end.
Proof.
  induction cs as [|c cs IH]; intros w.
  - split; reflexivity.
  - cbn [Webm.write_each length first_fault].
    unfold trace_of, result_of, bind, call, next_fault in *.
    destruct w as [fs clk s p]. cbn [faults clock spi ffmpeg_proc] in *.
    destruct fs as [|[x|] fs].
    + specialize (IH (World [] clk s p)). cbn [faults] in IH.
      destruct (Webm.write_each k cs (World [] clk s p)) as [[r t] w1].
      cbn [fst snd] in *. destruct IH as [-> ->].
      destruct (length cs); split; reflexivity.
    + split; reflexivity.
    + specialize (IH (World fs clk s p)). cbn [faults] in IH.
      destruct (Webm.write_each k cs (World fs clk s p)) as [[r t] w1].
      cbn [fst snd] in *. destruct IH as [-> ->].
      destruct (first_fault fs (length cs)) as [[i x]|]; split; reflexivity.
Qed.

(* ================================================================== *)
(** ** Address window (C1) *)

Lemma data_groups_app t1 t2 :
  data_groups (t1 ++ t2) = data_groups t1 ++ data_groups t2.
Proof. apply flat_map_app. Qed.








(* ================================================================== *)
(** ** Pixel conversion (C2, C10) *)

Lemma v4_frame_bytes_spec px :
  Forall rgb_ok px ->
  V4Pure.frame_bytes px =
  flat_map (fun p => hi_lo (spec_wire16 (red p) (green p) (blue p))) px.
Proof.
  induction 1 as [|p px [Hr [Hg Hb]] _ IH]; [reflexivity|].
  unfold V4Pure.frame_bytes in *. cbn [flat_map]. rewrite IH.
  rewrite v4_pixel_bytes_hi_lo, v4_rgb565_spec by assumption. reflexivity.
Qed.

Lemma webm_frame_bytes_spec px :
  Forall rgb_ok px ->
  WebmPure.frame_bytes px =
  flat_map (fun p => hi_lo (spec_wire16 (red p) (green p) (blue p))) px.
Proof.
  induction 1 as [|p px [Hr [Hg Hb]] _ IH]; [reflexivity|].
  unfold WebmPure.frame_bytes in *. cbn [flat_map]. rewrite IH.
  rewrite webm_pixel_bytes_hi_lo, webm_rgb565_spec by assumption. reflexivity.
Qed.

(** C2.  For 8-bit channels the conversion of [display_image] is exactly
    [((r & 0xF8) << 8) | ((g & 0xFC) << 3) | ((b & 0xF8) >> 3)] (the
    [uint16] arithmetic never wraps), a 16-bit value; (0xF8,0xFC,0xF8) gives
    0xFFFF and (0,0,0) gives 0; each pixel leaves as two bytes, high byte
    first; and the pixel group that [display_image] hands to the transport
    is that byte stream, a function of the pixels alone: the same for every
    driver that holds its handles and every world in which no call raises. *)
Theorem C2_display_image_pixel_conversion
    (self : V4.ST7789) (px : list rgb) (w : world)
    (Hpx : Forall rgb_ok px)
    (Hspi : V4._spi self = true) (Hdc : V4._dc_request self = true)
    (Hw : faults w = []) :
  Forall (fun p =>
            V4Pure.rgb565 (red p) (green p) (blue p)
              = spec_wire16 (red p) (green p) (blue p) /\
            0 <= V4Pure.rgb565 (red p) (green p) (blue p) < 65536 /\
            V4Pure.pixel_bytes p
              = hi_lo (spec_wire16 (red p) (green p) (blue p))) px /\
  V4Pure.rgb565 0xF8 0xFC 0xF8 = 0xFFFF /\
  V4Pure.rgb565 0x00 0x00 0x00 = 0x0000 /\
  last (data_groups (trace_of (V4.display_image self px) w)) []
    = flat_map (fun p => hi_lo (spec_wire16 (red p) (green p) (blue p))) px.
Proof.
  split; [|split; [reflexivity | split; [reflexivity|]]].
  - apply Forall_forall. intros p Hin.
    rewrite Forall_forall in Hpx. destruct (Hpx p Hin) as [Hr [Hg Hb]].
    split; [apply v4_rgb565_spec; assumption|].
    split; [apply v4_rgb565_range|].
    rewrite v4_pixel_bytes_hi_lo, v4_rgb565_spec by assumption. reflexivity.
  - pose proof (V4Steady.display_image_steady self Hspi Hdc px) as Hst.
    destruct (V4Pure.clipped_window _ _ _ _ _ _) as [[[a b] c] d].
    destruct (steady_trace _ _ _ _ w Hst Hw I) as [-> _].
    cbn [data_groups flat_map app last].
    apply v4_frame_bytes_spec, Hpx.
Qed.

(** C2, witness: a red, a white-saturated and a black pixel on the default
    panel. *)
Lemma C2_display_image_witness :
  last (data_groups
          (trace_of (V4.display_image (V4.Driver 320 240 true true true)
                       [RGB 0xFF 0x00 0x00; RGB 0xF8 0xFC 0xF8; RGB 0 0 0])
                    (calm []))) []
    = [0xF8; 0x00; 0xFF; 0xFF; 0x00; 0x00].
Proof.
  apply (C2_display_image_pixel_conversion
           (V4.Driver 320 240 true true true)
           [RGB 0xFF 0x00 0x00; RGB 0xF8 0xFC 0xF8; RGB 0 0 0] (calm [])).
  - repeat constructor; simpl; lia.
  - reflexivity.
  - reflexivity.
  - reflexivity.
Defined.



(* ================================================================== *)
(** ** Mode-select pairing (C3) *)

(** C3.  In every world (whatever calls raise, whatever handles are held),
    the traces of the init sequence, of the window setting and of the image
    display obey the mode-select discipline: a bus write is made only when
    the call just before it was a successful [set_value] of the DC line to
    the level of that write (low for a command byte, high for data), or,
    in the player whose transport cuts a data group into chunks, when it is
    the next chunk of the data group in progress.  The driver class writes
    each group in one call, so there the first case is the only one. *)
Theorem C3_mode_select_pairing :
  (forall self w,
      dc_paired false (trace_of (V4.init_display self) w)) /\
  (forall self x0 y0 x1 y1 w,
      dc_paired false (trace_of (V4.set_window self x0 y0 x1 y1) w)) /\
  (forall self px w,
      dc_paired false (trace_of (V4.display_image self px) w)) /\
  (forall w, dc_paired true (trace_of Webm.init_display w)) /\
  (forall x0 y0 x1 y1 w,
      dc_paired true (trace_of (Webm.set_address_window x0 y0 x1 y1) w)) /\
  (forall px w,
      dc_paired true (trace_of (Webm.display_frame_rgb565 px) w)).
Proof.
  repeat split; intros.
  - apply V4Facts.init_display_paired.
  - apply V4Facts.set_window_paired.
  - apply V4Facts.display_image_paired.
  - apply WebmFacts.player_init_paired.
  - apply WebmFacts.set_address_window_paired.
  - apply WebmFacts.display_frame_rgb565_paired.
Qed.

(** The acceptor is not vacuous: it rejects a data write under a low line,
    a write separated from its [set_value] by a sleep, a write after a
    [set_value] that raised, and a command sent as a continuation. *)
Lemma dc_run_rejects :
  dc_run true Idle [SetValue DC false; WriteBytes Data [0]] = false /\
  dc_run true Idle [SetValue DC true; Sleep 0.1; WriteBytes Data [0]] = false /\
  dc_run true Idle [SetValue DC true; Raised OSError; WriteBytes Data [0]]
    = false /\
  dc_run true Idle [SetValue DC true; WriteBytes Data [0];
                    WriteBytes Command [1]] = false /\
  dc_run false Idle [SetValue DC true; WriteBytes Data [0];
                     WriteBytes Data [1]] = false.
Proof. repeat split; reflexivity. Qed.

(* ================================================================== *)
(** ** Hardware reset (C4) *)






(* ================================================================== *)
(** ** Init sequence (C5) *)

(** C5, counterexample.  On the default driver with nothing raising,
    [init_display] sends the orientation command (0x36) before the pixel
    format command (0x3A), the reverse of the specification's order; the
    player's [init_display] sends neither software reset, inversion nor
    normal-mode-on.  Neither is the specified order, with or without the
    inversion step. *)
Lemma C5_counterexample_init_order :
  opcodes (trace_of (V4.init_display (V4.Driver 320 240 true true true))
             (calm []))
    = [0x01; 0x11; 0x36; 0x3A; 0x21; 0x13; 0x29] /\
  opcodes (trace_of Webm.init_display (World [] [] true false))
    = [0x11; 0x3A; 0x36; 0x29] /\
  forall inversion,
    opcodes (trace_of (V4.init_display (V4.Driver 320 240 true true true))
               (calm []))
      <> spec_init_order inversion /\
    opcodes (trace_of Webm.init_display (World [] [] true false))
      <> spec_init_order inversion.
Proof.
  split; [vm_compute; reflexivity|].
  split; [vm_compute; reflexivity|].
  intros [|]; split; vm_compute; intros H; discriminate H.
Qed.

(** C5, amended.  When the handles are held and no call raises,
    [ST7789.init_display] makes exactly these calls, in this order:
    software reset, sleep 150 ms; sleep-out, sleep 500 ms; orientation
    (0x36) with byte 0x60; pixel format (0x3A) with byte 0x55 (16-bit);
    inversion on; normal mode on, sleep 10 ms; display on, sleep 100 ms.
    The player's [init_display] makes exactly: hardware reset (low 100 ms,
    high 100 ms); sleep-out, sleep 120 ms; pixel format with 0x55;
    orientation with ROTATION (0x60); display on, sleep 100 ms. *)
Theorem C5_init_sequence (self : V4.ST7789) (w : world)
    (Hspi : V4._spi self = true) (Hdc : V4._dc_request self = true)
    (Hglobal : spi w = true) (Hw : faults w = []) :
  trace_of (V4.init_display self) w
    = [SetValue DC false; WriteBytes Command [0x01]; Sleep 0.150;
       SetValue DC false; WriteBytes Command [0x11]; Sleep 0.500;
       SetValue DC false; WriteBytes Command [0x36];
       SetValue DC true; WriteBytes Data [0x60];
       SetValue DC false; WriteBytes Command [0x3A];
       SetValue DC true; WriteBytes Data [0x55];
       SetValue DC false; WriteBytes Command [0x21];
       SetValue DC false; WriteBytes Command [0x13]; Sleep 0.01;
       SetValue DC false; WriteBytes Command [0x29]; Sleep 0.100] /\
  opcodes (trace_of (V4.init_display self) w)
    = [V4Pure.ST7789_SWRESET; V4Pure.ST7789_SLPOUT; V4Pure.ST7789_MADCTL;
       V4Pure.ST7789_COLMOD; V4Pure.ST7789_INVON; V4Pure.ST7789_NORON;
       V4Pure.ST7789_DISPON] /\
  trace_of Webm.init_display w
    = [SetValue RST false; Sleep 0.1; SetValue RST true; Sleep 0.1;
       SetValue DC false; WriteBytes Command [0x11]; Sleep 0.12;
       SetValue DC false; WriteBytes Command [0x3A];
       SetValue DC true; WriteBytes Data [0x55];
       SetValue DC false; WriteBytes Command [0x36];
       SetValue DC true; WriteBytes Data [WebmPure.ROTATION];
       SetValue DC false; WriteBytes Command [0x29]; Sleep 0.1].
Proof.
  destruct (steady_trace _ _ _ _ w
              (V4Steady.init_display_steady self Hspi Hdc) Hw I) as [E _].
  destruct (steady_trace _ _ _ _ w WebmSteady.player_init_steady Hw Hglobal)
    as [E' _].
  rewrite E, E'. repeat split; reflexivity.
Qed.

(** C5, witness: default driver, global [spi] set, nothing raises. *)
Lemma C5_init_sequence_witness :
  opcodes (trace_of (V4.init_display (V4.Driver 320 240 true true true))
             (World [] [] true false))
    = [0x01; 0x11; 0x36; 0x3A; 0x21; 0x13; 0x29].
Proof.
  apply (C5_init_sequence (V4.Driver 320 240 true true true)
           (World [] [] true false)); reflexivity.
Defined.

(* ================================================================== *)
(** ** Serial write (C7) *)

Lemma result_get_spi {A} (f : bool -> M A) w :
  result_of (s <- get_spi ;; f s) w = result_of (f (spi w)) w.
Proof.
  unfold result_of, bind, get_spi.
  destruct (f (spi w) w) as [[r t] w1]. reflexivity.
Qed.

Lemma result_try_catch_silent {A} c (body : M A) (a : A) w :
  result_of (try_catch c body (fun _ => ret a)) w =
  match result_of body w with
  | Ok v => Ok v
  | Err e => if c e then Ok a else Err e
  end.
Proof.
  unfold result_of, try_catch.
  destruct (body w) as [[[v|e] t] w1]; simpl; [reflexivity|].
  destruct (c e); reflexivity.
Qed.

(** C7, counterexample.  With the bus open and the first [writebytes]
    raising [OSError], [spi_write] makes the one failing write, prints, and
    returns normally: no error reaches the caller. *)
Lemma C7_counterexample_error_swallowed :
  trace_of (Webm.spi_write Data [1; 2; 3]) (World [Some OSError] [] true false)
    = [WriteBytes Data [1; 2; 3]; Raised OSError] /\
  result_of (Webm.spi_write Data [1; 2; 3]) (World [Some OSError] [] true false)
    = Ok tt /\
  (forall e, result_of (Webm.spi_write Data [1; 2; 3])
               (World [Some OSError] [] true false) <> Err e).
Proof.
  split; [vm_compute; reflexivity|].
  split; [vm_compute; reflexivity|].
  intros e. vm_compute. intros H; discriminate H.
Qed.

(** C7, amended.  With the bus open, [spi_write] cuts the payload into
    consecutive chunks of 1..4096 bytes whose concatenation is the payload,
    and writes them in that order, each once, up to and including the first
    write that raises; nothing is written after it.  If that exception is an
    [Exception] it is printed and [spi_write] returns normally; a
    [KeyboardInterrupt] propagates.  If no write raises all chunks are
    written and [spi_write] returns normally. *)
Theorem C7_spi_write_chunks (k : xfer) (data_list : list Z) (w : world)
    (Hopen : spi w = true) :
  let cs := split_chunks WebmPure.SPI_CHUNK_SIZE data_list in
  concat cs = data_list /\
  Forall (fun c => (0 < length c <= 4096)%nat) cs /\
  trace_of (Webm.spi_write k data_list) w =
    match first_fault (faults w) (length cs) with
    | None => map (WriteBytes k) cs
    | Some (i, x) => map (WriteBytes k) (firstn (S i) cs) ++ [Raised x]
    end /\
  result_of (Webm.spi_write k data_list) w =
    match first_fault (faults w) (length cs) with
    | None => Ok tt
    | Some (_, x) => if is_Exception x then Ok tt else Err x
    end.
Proof.
  intros cs.
  destruct (split_chunks_spec WebmPure.SPI_CHUNK_SIZE ltac:(unfold WebmPure.SPI_CHUNK_SIZE; lia)
              data_list) as [Hc Hf].
  destruct (write_each_run k cs w) as [Ht Hr].
  split; [exact Hc|]. split; [exact Hf|]. split.
  - rewrite WebmFacts.trace_spi_write, Hopen. exact Ht.
  - unfold Webm.spi_write. rewrite result_get_spi, Hopen. cbn [negb].
    unfold try_except. rewrite result_try_catch_silent.
    fold cs. rewrite Hr.
    destruct (first_fault (faults w) (length cs)) as [[i x]|]; reflexivity.
Qed.

(** C7, witness: three bytes, the first write raises [OSError]. *)
Lemma C7_spi_write_chunks_witness :
  result_of (Webm.spi_write Data [1; 2; 3]) (World [Some OSError] [] true false)
    = match first_fault [Some OSError]
              (length (split_chunks WebmPure.SPI_CHUNK_SIZE [1; 2; 3])) with
      | None => Ok tt
      | Some (_, x) => if is_Exception x then Ok tt else Err x
      end.
Proof.
  apply (C7_spi_write_chunks Data [1; 2; 3]
           (World [Some OSError] [] true false)).
  reflexivity.
Defined.

(* ================================================================== *)
(** ** Results of a bind; [close] once it has returned *)

Lemma result_bind {A B} (m : M A) (f : A -> M B) w :
  result_of (bind m f) w =
  match result_of m w with
  | Ok a => result_of (f a) (world_after m w)
  | Err e => Err e
  end.
Proof.
  unfold result_of, world_after, bind.
  destruct (m w) as [[[a|e] t] w1]; simpl; [|reflexivity].
  destruct (f a w1) as [[r t2] w2]. reflexivity.
Qed.



(* ================================================================== *)
(** ** Stepping through a run; the display and the pacing when no call
    raises *)

Lemma bind_run {A B} (m : M A) (f : A -> M B) w a t1 w1 :
  m w = (Ok a, t1, w1) ->
  bind m f w = match f a w1 with (r, t2, w2) => (r, t1 ++ t2, w2) end.
Proof. unfold bind. intros ->. reflexivity. Qed.

Lemma display_frame_rgb565_steady px :
  steady spi_set (Webm.display_frame_rgb565 px) tt
    (trace_of (Webm.display_frame_rgb565 px) (World [] [] true false)).
Proof.
  assert (exists T, steady spi_set (Webm.display_frame_rgb565 px) tt T)
    as [T HT].
  { eexists. unfold Webm.display_frame_rgb565.
    eapply steady_seq;
      [apply WebmSteady.set_address_window_steady | reflexivity
      | apply WebmSteady.write_data_steady]. }
  destruct (steady_trace _ _ _ _ (World [] [] true false) HT eq_refl eq_refl)
    as [-> _].
  exact HT.
Qed.


Lemma pace_calm t0 t1 w :
  faults w = [] ->
  Webm.pace t0 t1 w =
  (Ok tt,
   if Qlt_le_dec 0 (Webm.frame_interval - (t1 - t0))
   then [Sleep (Webm.frame_interval - (t1 - t0))] else [],
   w).
Proof.
  intros Hw. unfold Webm.pace. cbv zeta.
  destruct (Qlt_le_dec 0 (Webm.frame_interval - (t1 - t0))).
  - apply (steady_call anywhere _ w Hw I).
  - reflexivity.
Qed.

(* ================================================================== *)
(** ** Teardown of the player (C6) *)


Lemma teardown_calls_app t1 t2 :
  teardown_calls (t1 ++ t2) = teardown_calls t1 ++ teardown_calls t2.
Proof. apply filter_app. Qed.

Lemma teardown_ops_app t1 t2 :
  teardown_ops (t1 ++ t2) = teardown_ops t1 ++ teardown_ops t2.
Proof. apply flat_map_app. Qed.

Lemma teardown_ops_calls t : teardown_ops (teardown_calls t) = teardown_ops t.
Proof.
  induction t as [|e t IH]; [reflexivity|].
  destruct e; cbn [teardown_calls filter is_teardown teardown_ops flat_map app];
    fold (teardown_calls t); fold (teardown_ops t);
    fold (teardown_ops (teardown_calls t)); rewrite ?IH; reflexivity.
Qed.

Lemma no_teardown_ops t : no_teardown t -> teardown_ops t = [].
Proof. intros H. rewrite <- teardown_ops_calls, H. reflexivity. Qed.

Lemma no_teardown_sequential : sequential no_teardown.
Proof.
  split; [reflexivity|].
  intros t1 t2 H1 H2. unfold no_teardown in *.
  rewrite teardown_calls_app, H1, H2. reflexivity.
Qed.

Ltac quiet_step :=
  first
    [ apply (emits_bind _ no_teardown_sequential); [|intros ?]
    | apply (emits_try_except _ no_teardown_sequential); [|intros ?]
    | apply (emits_try_catch _ no_teardown_sequential); [|intros ?]
    | apply (emits_ret _ no_teardown_sequential)
    | apply (emits_raise _ no_teardown_sequential)
    | apply (emits_monotonic _ no_teardown_sequential)
    | apply (emits_get_spi _ no_teardown_sequential)
    | apply (emits_set_spi _ no_teardown_sequential)
    | apply (emits_get_ffmpeg_proc _ no_teardown_sequential)
    | apply (emits_set_ffmpeg_proc _ no_teardown_sequential)
    | apply emits_call; [reflexivity | intros ?; reflexivity] ].

Module WebmQuiet.
Import Webm.

Lemma write_each_quiet k cs : emits (write_each k cs) no_teardown.
Proof.
  induction cs as [|c cs IH]; cbn [write_each]; [quiet_step|].
  quiet_step; [quiet_step | exact IH].
Qed.

Lemma spi_write_quiet k l : emits (spi_write k l) no_teardown.
Proof.
  unfold spi_write. quiet_step; [quiet_step|].
  destruct (negb _); [quiet_step|].
  quiet_step; [apply write_each_quiet | quiet_step].
Qed.

Lemma write_command_quiet cmd : emits (write_command cmd) no_teardown.
Proof.
  unfold write_command. quiet_step; [quiet_step | apply spi_write_quiet].
Qed.

Lemma write_data_quiet d : emits (write_data d) no_teardown.
Proof.
  unfold write_data. quiet_step; [quiet_step|].
  destruct d; apply spi_write_quiet.
Qed.

Ltac quiet :=
  repeat first [ apply write_command_quiet | apply write_data_quiet
               | quiet_step ].

Lemma init_display_quiet : emits init_display no_teardown.
Proof. unfold init_display, reset_display. quiet. Qed.

Lemma display_frame_rgb565_quiet px :
  emits (display_frame_rgb565 px) no_teardown.
Proof. unfold display_frame_rgb565, set_address_window. quiet. Qed.

Lemma extract_frames_quiet b : emits (extract_frames b) no_teardown.
Proof. unfold extract_frames. destruct b; cbn [negb]; quiet. Qed.

Lemma read_quiet rd : emits (read rd) no_teardown.
Proof. intros w. destruct rd; reflexivity. Qed.

Lemma pace_quiet t0 t1 : emits (pace t0 t1) no_teardown.
Proof. unfold pace. cbv zeta. destruct (Qlt_le_dec _ _); quiet. Qed.

Lemma loop_body_quiet rd s : emits (loop_body rd s) no_teardown.
Proof.
  unfold loop_body. quiet_step; [quiet_step|].
  quiet_step.
  { quiet_step; [|quiet_step].
    quiet_step; [apply read_quiet | quiet_step]. }
  destruct a0 as [in_bytes|]; [|quiet_step].
  destruct (_ =? _)%nat; [quiet_step|].
  destruct (_ <? _); [quiet_step|].
  destruct (frombytes in_bytes); [|quiet_step].
  quiet_step; [apply display_frame_rgb565_quiet|].
  quiet_step; [quiet_step|].
  quiet_step; [apply pace_quiet|].
  quiet_step; [quiet_step|].
  destruct (Qle_bool _ _); quiet_step.
Qed.

Lemma playback_loop_quiet stream : forall s,
  emits (playback_loop stream s) no_teardown.
Proof.
  induction stream as [|rd rest IH]; intros s; cbn [playback_loop].
  - quiet_step; [apply loop_body_quiet | quiet_step].
  - quiet_step; [apply loop_body_quiet|].
    destruct a as [|s']; [quiet_step | apply IH].
Qed.

End WebmQuiet.

Lemma trace_try_finally {A} (body : M A) fin w :
  trace_of (try_finally body fin) w
    = trace_of body w ++ trace_of fin (world_after body w).
Proof.
  unfold trace_of, world_after, try_finally.
  destruct (body w) as [[r t] w1]. cbn [fst snd].
  destruct (fin w1) as [[[u|e] t2] w2]; reflexivity.
Qed.

Lemma trace_get_ffmpeg_proc {A} (f : bool -> M A) w :
  trace_of (p <- get_ffmpeg_proc ;; f p) w = trace_of (f (ffmpeg_proc w)) w.
Proof.
  unfold trace_of, bind, get_ffmpeg_proc.
  destruct (f (ffmpeg_proc w) w) as [[r t] w1]. reflexivity.
Qed.

Lemma trace_set_then {A} (set : M unit) (k : M A) w w1 :
  set w = (Ok tt, [], w1) -> trace_of (set ;; k) w = trace_of k w1.
Proof.
  intros H. unfold trace_of, bind. rewrite H.
  destruct (k w1) as [[r t] w2]. reflexivity.
Qed.

Lemma with_body_quiet sc : emits (Webm.with_body sc) no_teardown.
Proof.
  unfold Webm.with_body.
  quiet_step; [apply WebmQuiet.init_display_quiet|].
  quiet_step; [apply WebmQuiet.display_frame_rgb565_quiet|].
  quiet_step; [apply WebmQuiet.extract_frames_quiet|].
  quiet_step; [quiet_step|].
  destruct (negb _); [quiet_step|].
  quiet_step; [quiet_step|].
  quiet_step; [apply WebmQuiet.playback_loop_quiet|].
  quiet_step; quiet_step.
Qed.

(** The [with] block releases the lines exactly when it acquired them, and
    after everything its body did. *)
Lemma with_request_lines_ops {A} (body : M A) w :
  emits body no_teardown ->
  teardown_ops (trace_of (Webm.with_request_lines body) w) = [] \/
  teardown_ops (trace_of (Webm.with_request_lines body) w)
    = [ReleaseLineController].
Proof.
  intros Hb. unfold Webm.with_request_lines.
  match goal with |- context [trace_of (call ?e ;; ?k) w] =>
    destruct (trace_call_then e k w) as [[x ->]|[w1 ->]] end; [left; reflexivity|].
  right. rewrite trace_try_finally.
  cbn [teardown_ops flat_map app]. fold (teardown_ops).
  change (flat_map _ ?t) with (teardown_ops t).
  rewrite teardown_ops_app, (no_teardown_ops _ (Hb w1)).
  destruct (trace_call ReleaseLines (world_after body w1)) as [-> | [x ->]];
    reflexivity.
Qed.

Lemma stop_ops w :
  teardown_ops
    (trace_of
       (call Terminate ;;
        try_catch (fun e => match e with KeyboardInterrupt => false | _ => true end)
          (call Wait)
          (fun e => match e with TimeoutExpired => call Kill | _ => ret tt end) ;;
        call CloseStdout ;;
        call CloseStderr) w) = [StopSource].
Proof.
  match goal with |- context [trace_of (call ?e ;; ?k) w] =>
    destruct (trace_call_then e k w) as [[x ->]|[w1 ->]] end; [reflexivity|].
  cbn [teardown_ops flat_map app]. f_equal.
  change (flat_map _ ?t) with (teardown_ops t).
  assert (sequential (fun t => teardown_ops t = [])) as HS.
  { split; [reflexivity|]. intros t1 t2 H1 H2.
    rewrite teardown_ops_app, H1, H2. reflexivity. }
  revert w1.
  change (emits
    (try_catch (fun e => match e with KeyboardInterrupt => false | _ => true end)
       (call Wait)
       (fun e => match e with TimeoutExpired => call Kill | _ => ret tt end) ;;
     call CloseStdout ;; call CloseStderr) (fun t => teardown_ops t = [])).
  apply (emits_bind _ HS).
  - apply (emits_try_catch _ HS).
    + apply emits_call; [|intros x]; reflexivity.
    + intros [| | |]; first [apply (emits_ret _ HS)
                            | apply emits_call; [|intros x]; reflexivity].
  - intros _. apply (emits_bind _ HS); [|intros _];
      (apply emits_call; [|intros x]; reflexivity).
Qed.

Lemma cleanup_ops running w :
  In (teardown_ops (trace_of (Webm.cleanup running) w))
     [[]; [StopSource]; [CloseTransport]; [StopSource; CloseTransport]].
Proof.
  unfold Webm.cleanup. rewrite trace_get_ffmpeg_proc.
  assert (forall w', teardown_ops
            (trace_of (s <- get_spi ;; if s then call SpiClose else ret tt) w')
            = [] \/
          teardown_ops
            (trace_of (s <- get_spi ;; if s then call SpiClose else ret tt) w')
            = [CloseTransport]) as Hclose.
  { intros w'. rewrite trace_get_spi. destruct (spi w'); [|left; reflexivity].
    right. destruct (trace_call SpiClose w') as [-> | [x ->]]; reflexivity. }
  destruct (ffmpeg_proc w && running).
  - rewrite trace_bind. destruct (result_of _ w) as [u|e].
    + rewrite teardown_ops_app, stop_ops.
      match goal with |- context [trace_of _ (world_after ?m w)] =>
        destruct (Hclose (world_after m w)) as [-> | ->] end;
        simpl; auto.
    + rewrite stop_ops. simpl; auto.
  - erewrite trace_set_then by reflexivity.
    destruct (Hclose w) as [-> | ->]; simpl; auto.
Qed.

Lemma play_video_unfold sc :
  Webm.play_video sc =
  if negb (Webm.isfile sc) then ret tt
  else
    set_ffmpeg_proc false ;;
    try_finally
      (try_catch (fun _ => true)
         (set_spi true ;; call SpiOpen ;; Webm.with_request_lines (Webm.with_body sc))
         (fun _ => ret tt))
      (Webm.cleanup (Webm.running_at_cleanup sc)).
Proof. reflexivity. Qed.

Lemma body_ops sc w :
  let body :=
    try_catch (fun _ => true)
      (set_spi true ;; call SpiOpen ;; Webm.with_request_lines (Webm.with_body sc))
      (fun _ => ret tt) in
  teardown_ops (trace_of body w) = [] \/
  teardown_ops (trace_of body w) = [ReleaseLineController].
Proof.
  cbv zeta. rewrite trace_try_catch_silent.
  erewrite trace_set_then by reflexivity.
  match goal with |- context [trace_of (call ?e ;; ?k) ?w0] =>
    destruct (trace_call_then e k w0) as [[x ->]|[w1 ->]] end;
    [left; reflexivity|].
  cbn [teardown_ops flat_map app]. change (flat_map _ ?t) with (teardown_ops t).
  apply with_request_lines_ops, with_body_quiet.
Qed.

Lemma play_video_teardown_order sc w :
  subsequence (teardown_ops (trace_of (Webm.play_video sc) w))
    code_teardown_order = true.
Proof.
  rewrite play_video_unfold. destruct (negb (Webm.isfile sc)); [reflexivity|].
  erewrite trace_set_then by reflexivity.
  rewrite trace_try_finally, teardown_ops_app.
  pose proof (cleanup_ops (Webm.running_at_cleanup sc)
    (world_after
       (try_catch (fun _ => true)
          (set_spi true ;; call SpiOpen ;; Webm.with_request_lines (Webm.with_body sc))
          (fun _ => ret tt))
       (World (faults w) (clock w) (spi w) false))) as Hc.
  destruct (body_ops sc (World (faults w) (clock w) (spi w) false)) as [-> | ->];
    cbn [In] in Hc;
    destruct Hc as [<- | [<- | [<- | [<- | []]]]]; reflexivity.
Qed.

(** *** Runs of the player in which no call raises *)

Lemma world_bind {A B} (m : M A) (f : A -> M B) w :
  world_after (bind m f) w =
  match result_of m w with
  | Ok a => world_after (f a) (world_after m w)
  | Err _ => world_after m w
  end.
Proof.
  unfold result_of, world_after, bind.
  destruct (m w) as [[[a|e] t] w1]; simpl; [|reflexivity].
  destruct (f a w1) as [[r t2] w2]. reflexivity.
Qed.

Lemma world_bind_run {A B} (m : M A) (f : A -> M B) w a t1 w1 :
  m w = (Ok a, t1, w1) -> world_after (bind m f) w = world_after (f a) w1.
Proof.
  intros H. unfold world_after, bind. rewrite H.
  destruct (f a w1) as [[r t2] w2]. reflexivity.
Qed.

Lemma world_try_catch_silent {A} c (body : M A) (a : A) w :
  world_after (try_catch c body (fun _ => ret a)) w = world_after body w.
Proof.
  unfold world_after, try_catch.
  destruct (body w) as [[[v|e] t] w1]; simpl; [reflexivity|].
  destruct (c e); reflexivity.
Qed.

Section Preserves.
Variable I : world -> Prop.
Hypothesis I_fault : forall w, I w -> I (snd (next_fault w)).
Hypothesis I_clock : forall w t ts,
  I w -> clock w = t :: ts -> I (World (faults w) ts (spi w) (ffmpeg_proc w)).

Lemma preserves_ret {A} (a : A) : preserves I (ret a).
Proof. intros w H. exact H. Qed.

Lemma preserves_call e : preserves I (call e).
Proof.
  intros w H. specialize (I_fault w H). unfold world_after, call.
  destruct (next_fault w) as [[x|] w1]; exact I_fault.
Qed.

Lemma preserves_monotonic : preserves I monotonic.
Proof.
  intros w H. unfold world_after, monotonic.
  destruct (clock w) as [|t ts] eqn:E; [exact H|].
  apply (I_clock w t ts H E).
Qed.

Lemma preserves_get_spi : preserves I get_spi.
Proof. intros w H. exact H. Qed.

Lemma preserves_bind {A B} (m : M A) (f : A -> M B) :
  preserves I m -> (forall a, preserves I (f a)) -> preserves I (bind m f).
Proof.
  intros Hm Hf w H. rewrite world_bind.
  destruct (result_of m w); [apply Hf|]; apply Hm, H.
Qed.

Lemma preserves_try_catch {A} c (body : M A) h :
  preserves I body -> (forall e, preserves I (h e)) ->
  preserves I (try_catch c body h).
Proof.
  intros Hb Hh w H. specialize (Hb w H). unfold world_after, try_catch in *.
  destruct (body w) as [[[a|e] t] w1]; cbn [snd] in *; [exact Hb|].
  destruct (c e); [|exact Hb].
  specialize (Hh e w1 Hb). unfold world_after in Hh.
  destruct (h e w1) as [[r t2] w2]. exact Hh.
Qed.

Lemma preserves_read rd : preserves I (Webm.read rd).
Proof. intros w H. destruct rd; exact H. Qed.

End Preserves.

Section Stable.
Variable I : world -> Prop.
Hypothesis I_fault : forall w, I w -> I (snd (next_fault w)).

Local Ltac stable_step :=
  first
    [ apply (preserves_bind I); [|intros ?]
    | apply (preserves_try_catch I); [|intros ?]
    | apply (preserves_ret I)
    | apply (preserves_get_spi I)
    | apply (preserves_call I I_fault) ].

Lemma write_each_stable k cs : preserves I (Webm.write_each k cs).
Proof.
  induction cs as [|c cs IH]; cbn [Webm.write_each]; [stable_step|].
  stable_step; [stable_step | exact IH].
Qed.

Lemma spi_write_stable k l : preserves I (Webm.spi_write k l).
Proof.
  unfold Webm.spi_write. stable_step; [stable_step|].
  destruct (negb _); [stable_step|].
  unfold try_except. stable_step; [apply write_each_stable | stable_step].
Qed.

Lemma write_command_stable cmd : preserves I (Webm.write_command cmd).
Proof.
  unfold Webm.write_command. stable_step; [stable_step | apply spi_write_stable].
Qed.

Lemma write_data_stable d : preserves I (Webm.write_data d).
Proof.
  unfold Webm.write_data. stable_step; [stable_step|].
  destruct d; apply spi_write_stable.
Qed.

Lemma display_frame_rgb565_stable px :
  preserves I (Webm.display_frame_rgb565 px).
Proof.
  unfold Webm.display_frame_rgb565, Webm.set_address_window.
  repeat first [ apply write_command_stable | apply write_data_stable
               | stable_step ].
Qed.

End Stable.

Lemma playing_fault w : playing w -> playing (snd (next_fault w)).
Proof.
  intros (Hf & Hs & Hp). unfold next_fault. rewrite Hf. repeat split; assumption.
Qed.

Lemma playing_clock w t ts :
  playing w -> clock w = t :: ts ->
  playing (World (faults w) ts (spi w) (ffmpeg_proc w)).
Proof. intros (Hf & Hs & Hp) _. repeat split; assumption. Qed.

Ltac keep_step :=
  first
    [ apply (preserves_bind playing); [|intros ?]
    | apply (preserves_try_catch playing); [|intros ?]
    | apply (preserves_ret playing)
    | apply (preserves_monotonic playing playing_clock)
    | apply (preserves_get_spi playing)
    | apply (preserves_read playing)
    | apply (preserves_call playing playing_fault) ].

Module WebmKeeps.
Import Webm.

Lemma pace_keeps t0 t1 : preserves playing (pace t0 t1).
Proof. unfold pace. cbv zeta. destruct (Qlt_le_dec _ _); keep_step. Qed.

Lemma loop_body_keeps rd s : preserves playing (loop_body rd s).
Proof.
  unfold loop_body. keep_step; [keep_step|].
  keep_step.
  { unfold try_except. keep_step; [|keep_step].
    keep_step; [apply preserves_read | keep_step]. }
  destruct a0 as [in_bytes|]; [|keep_step].
  destruct (_ =? _)%nat; [keep_step|].
  destruct (_ <? _); [keep_step|].
  destruct (frombytes in_bytes); [|keep_step].
  keep_step;
    [apply (display_frame_rgb565_stable playing playing_fault)|].
  keep_step; [keep_step|].
  keep_step; [apply pace_keeps|].
  keep_step; [keep_step|].
  destruct (Qle_bool _ _); keep_step.
Qed.

Lemma playback_loop_keeps stream : forall s,
  preserves playing (playback_loop stream s).
Proof.
  induction stream as [|rd rest IH]; intros s; cbn [playback_loop].
  - keep_step; [apply loop_body_keeps | keep_step].
  - keep_step; [apply loop_body_keeps|].
    destruct a as [|s']; [keep_step | apply IH].
Qed.

End WebmKeeps.

Lemma extract_frames_steady b :
  steady anywhere (Webm.extract_frames b) b
    ([Spawn; Sleep 0.1] ++ if b then [] else [ReadStderr]).
Proof.
  unfold Webm.extract_frames. apply steady_try_except.
  eapply steady_seq; [apply steady_call | reflexivity |].
  destruct b; cbn [negb].
  - eapply steady_seq; [apply steady_call | reflexivity | apply steady_ret].
  - eapply steady_seq; [apply steady_call | reflexivity |].
    eapply steady_seq; [apply steady_call | reflexivity | apply steady_ret].
Qed.

Lemma with_body_calm sc w :
  faults w = [] -> spi w = true -> Webm.ffmpeg_starts sc = true ->
  playing (world_after (Webm.with_body sc) w).
Proof.
  intros Hw Hs Hstart. unfold Webm.with_body. rewrite Hstart.
  erewrite world_bind_run
    by (apply WebmSteady.player_init_steady; assumption).
  erewrite world_bind_run
    by (apply display_frame_rgb565_steady; assumption).
  erewrite world_bind_run
    by (apply extract_frames_steady; [assumption | exact I]).
  erewrite world_bind_run by reflexivity.
  cbn [negb].
  assert (playing (World (faults w) (clock w) (spi w) true)) as Hplay
    by (repeat split; assumption).
  revert Hplay. generalize (World (faults w) (clock w) (spi w) true).
  change (preserves playing
            (start_time <- monotonic ;;
             Webm.playback_loop (Webm.stream sc)
               (Webm.Session 0 start_time start_time) ;;
             monotonic ;; ret tt)).
  keep_step; [keep_step|].
  keep_step; [apply WebmKeeps.playback_loop_keeps|].
  keep_step; keep_step.
Qed.

Lemma cleanup_calm running w :
  playing w ->
  teardown_calls (trace_of (Webm.cleanup running) w)
    = (if running then [Terminate; Wait; CloseStdout; CloseStderr] else [])
      ++ [SpiClose].
Proof.
  intros (Hf & Hs & Hp). destruct w as [fs clk s p]. cbn in Hf, Hs, Hp. subst.
  destruct running; reflexivity.
Qed.

(** The steps of the teardown block are not guarded one by one: when
    [terminate()] raises, the block is left at once and the bus is not
    closed. *)
Lemma cleanup_terminate_raises :
  trace_of (Webm.cleanup true) (World [Some OSError] [] true true)
    = [Terminate; Raised OSError] /\
  result_of (Webm.cleanup true) (World [Some OSError] [] true true)
    = Err OSError.
Proof. split; reflexivity. Qed.

Lemma body_calm sc w :
  faults w = [] -> Webm.ffmpeg_starts sc = true ->
  let body :=
    try_catch (fun _ => true)
      (set_spi true ;; call SpiOpen ;; Webm.with_request_lines (Webm.with_body sc))
      (fun _ => ret tt) in
  teardown_calls (trace_of body w) = [ReleaseLines] /\
  playing (world_after body w).
Proof.
  intros Hw Hstart. cbv zeta.
  rewrite trace_try_catch_silent, world_try_catch_silent.
  set (w1 := World (faults w) (clock w) true (ffmpeg_proc w)).
  assert (faults w1 = []) as Hw1 by exact Hw.
  erewrite trace_set_then by reflexivity.
  erewrite world_bind_run by reflexivity. fold w1.
  pose proof (steady_call anywhere SpiOpen w1 Hw1 I) as Hopen.
  pose proof (steady_call anywhere RequestLines w1 Hw1 I) as Hreq.
  pose proof (with_body_calm sc w1 Hw1 eq_refl Hstart) as Hplay.
  pose proof (with_body_quiet sc w1) as Hquiet.
  unfold trace_of at 1. unfold world_after at 1.
  rewrite (bind_run _ _ _ _ _ _ Hopen).
  unfold Webm.with_request_lines.
  rewrite (bind_run _ _ _ _ _ _ Hreq).
  unfold try_finally. unfold world_after in Hplay. unfold trace_of in Hquiet.
  destruct (Webm.with_body sc w1) as [[r t] w2]. cbn [fst snd] in *.
  destruct Hplay as (Hf2 & Hs2 & Hp2).
  rewrite (steady_call anywhere ReleaseLines w2 Hf2 I).
  cbn [fst snd app].
  split; [|repeat split; assumption].
  change (teardown_calls (SpiOpen :: RequestLines :: t ++ [ReleaseLines]))
    with (teardown_calls (t ++ [ReleaseLines])).
  rewrite teardown_calls_app, Hquiet. reflexivity.
Qed.

Lemma play_video_teardown_calm sc w :
  Webm.isfile sc = true -> Webm.ffmpeg_starts sc = true -> faults w = [] ->
  teardown_calls (trace_of (Webm.play_video sc) w)
    = ReleaseLines ::
      (if Webm.running_at_cleanup sc
       then [Terminate; Wait; CloseStdout; CloseStderr] else [])
      ++ [SpiClose].
Proof.
  intros Hfile Hstart Hw.
  rewrite play_video_unfold, Hfile. cbn [negb].
  erewrite trace_set_then by reflexivity.
  rewrite trace_try_finally, teardown_calls_app.
  destruct (body_calm sc (World (faults w) (clock w) (spi w) false) Hw Hstart)
    as [-> Hplay].
  rewrite (cleanup_calm _ _ Hplay). reflexivity.
Qed.

(** C6, counterexample.  The file exists, ffmpeg starts and still runs, the
    stream ends at the first read, no call raises: the lines are released
    first (exit of the [with] block), then the process is stopped, then the
    bus is closed.  This is not the order stop, release, close. *)
Lemma C6_counterexample_release_first :
  teardown_ops
    (trace_of (Webm.play_video (Webm.Scenario true true true [])) (calm []))
    = [ReleaseLineController; StopSource; CloseTransport] /\
  teardown_ops
    (trace_of (Webm.play_video (Webm.Scenario true true true [])) (calm []))
    <> spec_teardown_order.
Proof.
  assert (teardown_ops
            (trace_of (Webm.play_video (Webm.Scenario true true true []))
                      (calm []))
          = [ReleaseLineController; StopSource; CloseTransport]) as E.
  { rewrite <- teardown_ops_calls.
    rewrite (play_video_teardown_calm (Webm.Scenario true true true [])
               (calm []) eq_refl eq_refl eq_refl).
    reflexivity. }
  split; [exact E|]. rewrite E. discriminate.
Qed.

(** C6, amended.  However a run of [play_video] ends (end of stream, short
    or failed read, interrupt, any call raising), the teardown operations
    it performs are a subsequence of: release the GPIO lines, stop the
    frame source, close the serial transport; so each happens at most once
    and in that order.  When the file exists, ffmpeg starts and no call
    raises, the teardown calls are exactly: release of the lines; then, if
    the process is still running, terminate, wait, close of its two pipes;
    then close of the bus. *)
Theorem C6_teardown_order
    (sc sc' : Webm.scenario) (w w' : world)
    (Hfile : Webm.isfile sc = true) (Hstart : Webm.ffmpeg_starts sc = true)
    (Hcalm : faults w = []) :
  subsequence (teardown_ops (trace_of (Webm.play_video sc') w'))
    code_teardown_order = true /\
  teardown_calls (trace_of (Webm.play_video sc) w)
    = ReleaseLines ::
      (if Webm.running_at_cleanup sc
       then [Terminate; Wait; CloseStdout; CloseStderr] else [])
      ++ [SpiClose] /\
  teardown_ops (trace_of (Webm.play_video sc) w)
    = ReleaseLineController ::
      (if Webm.running_at_cleanup sc then [StopSource] else [])
      ++ [CloseTransport].
Proof.
  split; [apply play_video_teardown_order|].
  pose proof (play_video_teardown_calm sc w Hfile Hstart Hcalm) as E.
  split; [exact E|].
  rewrite <- teardown_ops_calls, E.
  destruct (Webm.running_at_cleanup sc); reflexivity.
Qed.

(** C6, witness: an interrupt arrives while the player waits for the first
    frame; the decoder is still running. *)
Lemma C6_teardown_order_witness :
  teardown_calls
    (trace_of (Webm.play_video
                 (Webm.Scenario true true true [ReadRaises KeyboardInterrupt]))
              (calm []))
    = [ReleaseLines; Terminate; Wait; CloseStdout; CloseStderr; SpiClose].
Proof.
  apply (C6_teardown_order
           (Webm.Scenario true true true [ReadRaises KeyboardInterrupt])
           (Webm.Scenario true true true [ReadRaises KeyboardInterrupt])
           (calm []) (calm [])); reflexivity.
Defined.

(* ================================================================== *)
(** ** Frame pacing (C8) *)




Lemma bind_err {A B} (m : M A) (f : A -> M B) w e t1 w1 :
  m w = (Err e, t1, w1) -> bind m f w = (Err e, t1, w1).
Proof. unfold bind. intros ->. reflexivity. Qed.




(* ================================================================== *)
(** ** Teardown invoked a second time (C9) *)








(* ================================================================== *)
(** * Further properties *)

(** ** The RGB565 packing *)

Lemma lor_disjoint_add k n b :
  0 <= n -> 0 <= b < 2 ^ n -> Z.lor (k * 2 ^ n) b = k * 2 ^ n + b.
Proof.
  intros Hn Hb.
  assert (Z.land (k * 2 ^ n) b = 0) as Hland.
  { rewrite <- (Z.mod_small b (2 ^ n)) at 1 by lia.
    rewrite <- Z.land_ones by lia.
    rewrite (Z.land_comm b), Z.land_assoc, Z.land_ones by lia.
    rewrite Z.mod_mul by lia. apply Z.land_0_l. }
  rewrite <- Z.lxor_lor by exact Hland.
  symmetry. apply Z.add_nocarry_lxor. exact Hland.
Qed.

Lemma red_field_arith r :
  is_uint8 r -> Z.shiftl (Z.land r 0xF8) 8 = (r / 8) * 2 ^ 11.
Proof.
  intros Hr.
  pose proof (uint8_cases
    (fun r => Z.shiftl (Z.land r 0xF8) 8 =? (r / 8) * 2 ^ 11) eq_refl r Hr) as H.
  apply Z.eqb_eq in H. exact H.
Qed.

Lemma green_field_arith g :
  is_uint8 g -> Z.shiftl (Z.land g 0xFC) 3 = (g / 4) * 2 ^ 5.
Proof.
  intros Hg.
  pose proof (uint8_cases
    (fun g => Z.shiftl (Z.land g 0xFC) 3 =? (g / 4) * 2 ^ 5) eq_refl g Hg) as H.
  apply Z.eqb_eq in H. exact H.
Qed.

Lemma blue_field_arith b :
  is_uint8 b -> Z.shiftr (Z.land b 0xF8) 3 = b / 8.
Proof.
  intros Hb.
  pose proof (uint8_cases
    (fun b => Z.shiftr (Z.land b 0xF8) 3 =? b / 8) eq_refl b Hb) as H.
  apply Z.eqb_eq in H. exact H.
Qed.

Lemma spec_wire16_sum r g b :
  is_uint8 r -> is_uint8 g -> is_uint8 b ->
  spec_wire16 r g b = 2048 * (r / 8) + 32 * (g / 4) + b / 8.
Proof.
  intros Hr Hg Hb. unfold spec_wire16.
  rewrite red_field_arith, green_field_arith, blue_field_arith by assumption.
  assert (0 <= r / 8 < 32) by
    (unfold is_uint8 in Hr; split;
     [apply Z.div_pos | apply Z.div_lt_upper_bound]; lia).
  assert (0 <= g / 4 < 64) by
    (unfold is_uint8 in Hg; split;
     [apply Z.div_pos | apply Z.div_lt_upper_bound]; lia).
  assert (0 <= b / 8 < 32) by
    (unfold is_uint8 in Hb; split;
     [apply Z.div_pos | apply Z.div_lt_upper_bound]; lia).
  rewrite (lor_disjoint_add (r / 8) 11) by (change (2 ^ 11) with 2048; lia).
  replace (r / 8 * 2 ^ 11 + g / 4 * 2 ^ 5)
    with ((r / 8 * 64 + g / 4) * 2 ^ 5) by (change (2 ^ 11) with 2048;
                                            change (2 ^ 5) with 32; lia).
  rewrite lor_disjoint_add by (change (2 ^ 5) with 32; lia).
  change (2 ^ 5) with 32. lia.
Qed.

(** X1.  For 8-bit channels both conversions pack the top five bits of
    red, the top six of green and the top five of blue into disjoint
    fields: the wire value is [2048*(r/8) + 32*(g/4) + b/8], the three
    fields read back as [r/8], [g/4] and [b/8], and so two pixels get the
    same wire value exactly when they agree on those top bits. *)
Theorem X1_rgb565_fields (p q : rgb) (Hp : rgb_ok p) (Hq : rgb_ok q) :
  let v := V4Pure.rgb565 (red p) (green p) (blue p) in
  v = 2048 * (red p / 8) + 32 * (green p / 4) + blue p / 8 /\
  WebmPure.rgb565 (red p) (green p) (blue p) = v /\
  red5 v = red p / 8 /\ green6 v = green p / 4 /\ blue5 v = blue p / 8 /\
  (v = V4Pure.rgb565 (red q) (green q) (blue q) <->
   red p / 8 = red q / 8 /\ green p / 4 = green q / 4 /\
   blue p / 8 = blue q / 8).
Proof.
  destruct Hp as (Hr & Hg & Hb). destruct Hq as (Hr' & Hg' & Hb').
  cbv zeta.
  rewrite webm_rgb565_spec, !v4_rgb565_spec, !spec_wire16_sum by assumption.
  unfold is_uint8 in *. unfold red5, green6, blue5.
  repeat split; try reflexivity;
    try (Z.div_mod_to_equations; lia).
Qed.

(** X1, witness: two reds that differ only in the low three bits. *)
Lemma X1_rgb565_fields_witness :
  V4Pure.rgb565 255 0 0 = V4Pure.rgb565 248 0 0.
Proof.
  apply (X1_rgb565_fields (RGB 255 0 0) (RGB 248 0 0));
    repeat split; simpl; lia.
Defined.

(** X2.  Each conversion is monotone in every channel: raising a channel
    never lowers the wire value. *)
Theorem X2_rgb565_monotone (r g b r' g' b' : Z)
    (Hr : is_uint8 r) (Hg : is_uint8 g) (Hb : is_uint8 b)
    (Hr' : is_uint8 r') (Hg' : is_uint8 g') (Hb' : is_uint8 b')
    (Hle : r <= r' /\ g <= g' /\ b <= b') :
  V4Pure.rgb565 r g b <= V4Pure.rgb565 r' g' b' /\
  WebmPure.rgb565 r g b <= WebmPure.rgb565 r' g' b'.
Proof.
  rewrite !webm_rgb565_spec, !v4_rgb565_spec, !spec_wire16_sum by assumption.
  unfold is_uint8 in *. Z.div_mod_to_equations. lia.
Qed.

(** X2, witness: more red, same green and blue. *)
Lemma X2_rgb565_monotone_witness :
  V4Pure.rgb565 10 20 30 <= V4Pure.rgb565 200 20 30.
Proof.
  apply (X2_rgb565_monotone 10 20 30 200 20 30); unfold is_uint8; lia.
Defined.

(* ================================================================== *)
(** ** Address windows on the wire *)

Lemma clip_in_range x bound : 0 <= x <= bound - 1 -> V4Pure.clip x bound = x.
Proof. unfold V4Pure.clip. lia. Qed.

Lemma clip_idempotent x bound :
  V4Pure.clip (V4Pure.clip x bound) bound = V4Pure.clip x bound.
Proof. unfold V4Pure.clip. lia. Qed.

Lemma hi_lo_wraps a :
  Z.land (Z.shiftr a 8) 0xFF * 256 + Z.land a 0xFF = a mod 65536.
Proof.
  rewrite !land_255, Z.shiftr_div_pow2 by lia. change (2 ^ 8) with 256.
  Z.div_mod_to_equations. lia.
Qed.

(** X3.  [set_window] transmits a window that lies inside the panel
    unchanged (the panel reads back the four coordinates that were
    passed), and clipping is idempotent: calling it with the coordinates
    it would clip to makes the same calls, in every world. *)
Theorem X3_set_window_round_trip
    (self : V4.ST7789) (x0 y0 x1 y1 : Z) (w w' : world)
    (mx my : option Z) (ax ay : Z)
    (Hwidth : V4.width self <= 65536) (Hheight : V4.height self <= 65536)
    (Hx0 : 0 <= x0 <= V4.width self - 1) (Hx1 : 0 <= x1 <= V4.width self - 1)
    (Hy0 : 0 <= y0 <= V4.height self - 1)
    (Hy1 : 0 <= y1 <= V4.height self - 1)
    (Hspi : V4._spi self = true) (Hdc : V4._dc_request self = true)
    (Hw : faults w = []) :
  wire_window (trace_of (V4.set_window self x0 y0 (Some x1) (Some y1)) w)
    = Some (x0, y0, x1, y1) /\
  match V4Pure.clipped_window (V4.width self) (V4.height self) ax ay mx my with
  | (cx0, cy0, cx1, cy1) =>
      V4.set_window self cx0 cy0 (Some cx1) (Some cy1) w'
        = V4.set_window self ax ay mx my w'
  end.
Proof.
  split.
  - pose proof (V4Steady.set_window_steady self Hspi Hdc x0 y0 (Some x1)
                  (Some y1)) as Hst.
    unfold V4Pure.clipped_window in Hst.
    rewrite !clip_in_range in Hst by assumption.
    destruct (steady_trace _ _ _ _ w Hst Hw I) as [-> _].
    unfold wire_window. cbn [data_groups flat_map app].
    rewrite !decode_addr_payload by lia. reflexivity.
  - unfold V4.set_window, V4Pure.clipped_window.
    rewrite !clip_idempotent. reflexivity.
Qed.

(** X3, witness: a 100x50 window at (10, 20) on the default panel. *)
Lemma X3_set_window_round_trip_witness :
  wire_window (trace_of (V4.set_window (V4.Driver 320 240 true true true)
                           10 20 (Some 109) (Some 69)) (calm []))
    = Some (10, 20, 109, 69).
Proof.
  apply (X3_set_window_round_trip (V4.Driver 320 240 true true true)
           10 20 109 69 (calm []) (calm []) None None 0 0);
    simpl; try lia; reflexivity.
Defined.

Lemma four_byte_chunk a b c d :
  split_chunks WebmPure.SPI_CHUNK_SIZE [a; b; c; d] = [[a; b; c; d]].
Proof. reflexivity. Qed.

(** X4.  The player's [set_address_window] never clips: with the bus open
    and no call raising, the panel reads back each coordinate modulo
    65536, whatever integers were passed; coordinates in 0..65535 arrive
    unchanged, and the full-screen call of [display_frame_rgb565] gives
    the window (0, 0, 319, 239). *)
Theorem X4_set_address_window_wraps
    (x0 y0 x1 y1 : Z) (w : world)
    (Hopen : spi w = true) (Hw : faults w = []) :
  wire_window (trace_of (Webm.set_address_window x0 y0 x1 y1) w)
    = Some (x0 mod 65536, y0 mod 65536, x1 mod 65536, y1 mod 65536) /\
  wire_window (trace_of (Webm.set_address_window 0 0 (WebmPure.WIDTH - 1)
                           (WebmPure.HEIGHT - 1)) w)
    = Some (0, 0, 319, 239).
Proof.
  assert (forall a b c d,
            wire_window (trace_of (Webm.set_address_window a b c d) w)
            = Some (a mod 65536, b mod 65536, c mod 65536, d mod 65536)) as H.
  { intros a b c d.
    destruct (steady_trace _ _ _ _ w
                (WebmSteady.set_address_window_steady a b c d) Hw Hopen)
      as [-> _].
    unfold WebmPure.addr_payload. rewrite !four_byte_chunk.
    unfold wire_window. cbn [data_groups flat_map app map decode_addr].
    rewrite !hi_lo_wraps. reflexivity. }
  split; [apply H|]. rewrite H. reflexivity.
Qed.

(** X4, witness: a negative coordinate wraps to the top of the range. *)
Lemma X4_set_address_window_wraps_witness :
  wire_window (trace_of (Webm.set_address_window (-1) 0 5 0)
                 (World [] [] true false))
    = Some (65535, 0, 5, 0).
Proof.
  apply (X4_set_address_window_wraps (-1) 0 5 0 (World [] [] true false));
    reflexivity.
Defined.

(* ================================================================== *)
(** ** The driver object: use after close, close under failures,
    construction, [clear] *)

Lemma tame_ret {A} (a : A) : tame (ret a).
Proof. intros w Hw. split; [intros e H; discriminate H | exact Hw]. Qed.


Lemma tame_call e : tame (call e).
Proof.
  intros w Hw. unfold exceptions_only, result_of, world_after, call, next_fault in *.
  destruct (faults w) as [|[x|] fs] eqn:E; cbn.
  - split; [intros e' H; discriminate H | rewrite E; constructor].
  - inversion Hw; subst. split; [intros e' H; congruence | assumption].
  - inversion Hw; subst. split; [intros e' H; discriminate H | assumption].
Qed.

Lemma tame_bind {A B} (m : M A) (f : A -> M B) :
  tame m -> (forall a, tame (f a)) -> tame (bind m f).
Proof.
  intros Hm Hf w Hw. destruct (Hm w Hw) as [He Hw1].
  rewrite result_bind, world_bind.
  destruct (result_of m w) as [a|e].
  - apply Hf, Hw1.
  - split; [|exact Hw1].
    intros e' H. injection H as <-. apply He. reflexivity.
Qed.

Lemma tame_try_catch {A} c (body : M A) h :
  tame body -> (forall e, tame (h e)) -> tame (try_catch c body h).
Proof.
  intros Hb Hh w Hw. destruct (Hb w Hw) as [He Hw1].
  unfold result_of, world_after, try_catch in *.
  destruct (body w) as [[[a|e] t] w1]; cbn [fst snd] in *.
  - split; [intros e' H; discriminate H | exact Hw1].
  - destruct (c e).
    + destruct (Hh e w1 Hw1) as [He2 Hw2].
      unfold result_of, world_after in He2, Hw2.
      destruct (h e w1) as [[r t2] w2]. cbn [fst snd] in *. auto.
    + split; [exact He | exact Hw1].
Qed.

(** A [try ... except Exception] whose handler only prints returns. *)
Lemma unfailing_try_except (body : M unit) :
  tame body -> unfailing (try_except body (fun _ => ret tt)).
Proof.
  intros Hb w Hw. destruct (Hb w Hw) as [He Hw1].
  unfold result_of, world_after, try_except, try_catch in *.
  destruct (body w) as [[[a|e] t] w1]; cbn [fst snd] in *.
  - split; [eauto | exact Hw1].
  - rewrite (He e eq_refl). cbn. split; [eauto | exact Hw1].
Qed.

Lemma unfailing_ret {A} (a : A) : unfailing (ret a).
Proof. intros w Hw. split; [exists a; reflexivity | exact Hw]. Qed.


Lemma command_unfailing self cmd : unfailing (V4.command self cmd).
Proof.
  unfold V4.command. destruct (_ || _); [apply unfailing_ret|].
  apply unfailing_try_except.
  apply tame_bind; [apply tame_call | intros _; apply tame_call].
Qed.

Lemma command_tame self cmd : tame (V4.command self cmd).
Proof.
  intros w Hw. destruct (command_unfailing self cmd w Hw) as [[a Ha] Hw1].
  split; [intros e H; congruence | exact Hw1].
Qed.

(** The four stages of [close]. *)
Lemma close_stages_unfailing self :
  unfailing
    (try_except
       (if V4._spi self && V4._dc_request self
        then V4.command self V4Pure.ST7789_DISPOFF ;; call (Sleep 0.05)
        else ret tt)
       (fun _ => ret tt)) /\
  (forall (held : bool) e,
      unfailing (if held then try_except (call e) (fun _ => ret tt)
                 else ret tt)).
Proof.
  split.
  - apply unfailing_try_except. destruct (_ && _); [|apply tame_ret].
    apply tame_bind; [apply command_tame | intros _; apply tame_call].
  - intros [|] e; [|apply unfailing_ret].
    apply unfailing_try_except, tame_call.
Qed.

Lemma handle_closes_app t1 t2 :
  handle_closes (t1 ++ t2) = handle_closes t1 ++ handle_closes t2.
Proof. apply filter_app. Qed.

Lemma no_closes_sequential : sequential (fun t => handle_closes t = []).
Proof.
  split; [reflexivity|]. intros t1 t2 H1 H2.
  rewrite handle_closes_app, H1, H2. reflexivity.
Qed.

Lemma display_off_no_closes self :
  emits
    (try_except
       (if V4._spi self && V4._dc_request self
        then V4.command self V4Pure.ST7789_DISPOFF ;; call (Sleep 0.05)
        else ret tt)
       (fun _ => ret tt)) (fun t => handle_closes t = []).
Proof.
  pose proof no_closes_sequential as HS.
  apply (emits_try_except _ HS); [|intros e; apply (emits_ret _ HS)].
  destruct (_ && _); [|apply (emits_ret _ HS)].
  apply (emits_bind _ HS).
  - unfold V4.command. destruct (_ || _); [apply (emits_ret _ HS)|].
    apply (emits_try_except _ HS); [|intros e; apply (emits_ret _ HS)].
    apply (emits_bind _ HS); [|intros _];
      (apply emits_call; [|intros x]; reflexivity).
  - intros _. apply emits_call; [|intros x]; reflexivity.
Qed.

Lemma guarded_close_trace (held : bool) e w :
  (forall x, handle_closes [e; Raised x] = [e]) -> handle_closes [e] = [e] ->
  handle_closes
    (trace_of (if held then try_except (call e) (fun _ => ret tt) else ret tt) w)
  = if held then [e] else [].
Proof.
  intros H2 H1. destruct held; [|reflexivity].
  unfold try_except. rewrite trace_try_catch_silent.
  destruct (trace_call e w) as [-> | [x ->]]; auto.
Qed.

(** What [m ;; k] does when [m] returns. *)
Lemma run_after {A B} (m : M A) (k : M B) w a :
  result_of m w = Ok a ->
  trace_of (m ;; k) w = trace_of m w ++ trace_of k (world_after m w) /\
  result_of (m ;; k) w = result_of k (world_after m w) /\
  world_after (m ;; k) w = world_after k (world_after m w).
Proof.
  intros H. rewrite trace_bind, result_bind, world_bind, H. auto.
Qed.

Lemma close_stages self :
  V4.close self =
  (try_except
     (if V4._spi self && V4._dc_request self
      then V4.command self V4Pure.ST7789_DISPOFF ;; call (Sleep 0.05)
      else ret tt)
     (fun _ => ret tt) ;;
   (if V4._dc_request self
    then try_except (call (RequestClose DC)) (fun _ => ret tt) else ret tt) ;;
   (if V4._rst_request self
    then try_except (call (RequestClose RST)) (fun _ => ret tt) else ret tt) ;;
   (if V4._spi self
    then try_except (call SpiClose) (fun _ => ret tt) else ret tt) ;;
   ret (V4.Driver (V4.width self) (V4.height self) false false false)).
Proof. destruct self. reflexivity. Qed.

Lemma close_under_failures self w :
  exceptions_only w ->
  result_of (V4.close self) w
    = Ok (V4.Driver (V4.width self) (V4.height self) false false false) /\
  handle_closes (trace_of (V4.close self) w)
    = (if V4._dc_request self then [RequestClose DC] else [])
      ++ (if V4._rst_request self then [RequestClose RST] else [])
      ++ (if V4._spi self then [SpiClose] else []) /\
  exceptions_only (world_after (V4.close self) w).
Proof.
  intros Hw. rewrite close_stages.
  destruct (close_stages_unfailing self) as [H1 H2].
  destruct (H1 w Hw) as [[[] R1] W1].
  destruct (run_after _
    ((if V4._dc_request self
      then try_except (call (RequestClose DC)) (fun _ => ret tt) else ret tt) ;;
     (if V4._rst_request self
      then try_except (call (RequestClose RST)) (fun _ => ret tt) else ret tt) ;;
     (if V4._spi self
      then try_except (call SpiClose) (fun _ => ret tt) else ret tt) ;;
     ret (V4.Driver (V4.width self) (V4.height self) false false false))
    w tt R1) as (-> & -> & ->).
  set (w1 := world_after _ w) in *.
  destruct (H2 (V4._dc_request self) (RequestClose DC) w1 W1) as [[[] R2] W2].
  destruct (run_after _
    ((if V4._rst_request self
      then try_except (call (RequestClose RST)) (fun _ => ret tt) else ret tt) ;;
     (if V4._spi self
      then try_except (call SpiClose) (fun _ => ret tt) else ret tt) ;;
     ret (V4.Driver (V4.width self) (V4.height self) false false false))
    w1 tt R2) as (-> & -> & ->).
  set (w2 := world_after _ w1) in *.
  destruct (H2 (V4._rst_request self) (RequestClose RST) w2 W2) as [[[] R3] W3].
  destruct (run_after _
    ((if V4._spi self
      then try_except (call SpiClose) (fun _ => ret tt) else ret tt) ;;
     ret (V4.Driver (V4.width self) (V4.height self) false false false))
    w2 tt R3) as (-> & -> & ->).
  set (w3 := world_after _ w2) in *.
  destruct (H2 (V4._spi self) SpiClose w3 W3) as [[[] R4] W4].
  destruct (run_after _
    (ret (V4.Driver (V4.width self) (V4.height self) false false false))
    w3 tt R4) as (-> & -> & ->).
  split; [reflexivity|]. split; [|exact W4].
  rewrite !handle_closes_app.
  rewrite (display_off_no_closes self w).
  subst w1 w2 w3.
  rewrite !guarded_close_trace by (intros; reflexivity).
  cbn [app]. rewrite app_nil_r. reflexivity.
Qed.

Lemma closed_command self cmd w :
  V4._spi self = false \/ V4._dc_request self = false ->
  V4.command self cmd w = (Ok tt, [], w).
Proof.
  intros H. unfold V4.command.
  destruct H as [-> | ->]; rewrite ?orb_true_r; reflexivity.
Qed.

Lemma closed_data self d w :
  V4._spi self = false \/ V4._dc_request self = false ->
  V4.data self d w = (Ok tt, [], w).
Proof.
  intros H. unfold V4.data.
  destruct H as [-> | ->]; rewrite ?orb_true_r; reflexivity.
Qed.

Lemma closed_set_window self x0 y0 x1 y1 w :
  V4._spi self = false \/ V4._dc_request self = false ->
  V4.set_window self x0 y0 x1 y1 w = (Ok tt, [], w).
Proof.
  intros H. unfold V4.set_window.
  destruct (V4Pure.clipped_window _ _ _ _ _ _) as [[[a b] c] d].
  rewrite (bind_run _ _ _ _ _ _ (closed_command self _ w H)).
  rewrite (bind_run _ _ _ _ _ _ (closed_data self _ w H)).
  rewrite (bind_run _ _ _ _ _ _ (closed_command self _ w H)).
  rewrite (bind_run _ _ _ _ _ _ (closed_data self _ w H)).
  rewrite (closed_command self _ w H). reflexivity.
Qed.

(** X5.  A driver object without its bus handle or without its DC line
    (in particular any object after [close]) ignores drawing requests:
    [command], [data], [set_window] and [display_image] make no call at
    all, return normally and leave the world as it was. *)
Theorem X5_use_after_close_is_silent
    (self : V4.ST7789) (w : world) (cmd : Z) (d : data_val)
    (x0 y0 : Z) (x1 y1 : option Z) (px : list rgb)
    (Hclosed : V4._spi self = false \/ V4._dc_request self = false) :
  V4.command self cmd w = (Ok tt, [], w) /\
  V4.data self d w = (Ok tt, [], w) /\
  V4.set_window self x0 y0 x1 y1 w = (Ok tt, [], w) /\
  V4.display_image self px w = (Ok tt, [], w).
Proof.
  split; [apply closed_command, Hclosed|].
  split; [apply closed_data, Hclosed|].
  split; [apply closed_set_window, Hclosed|].
  unfold V4.display_image.
  rewrite (bind_run _ _ _ _ _ _ (closed_set_window self _ _ _ _ w Hclosed)).
  rewrite (closed_data self _ w Hclosed). reflexivity.
Qed.

(** X5, witness: drawing on the closed default driver while the world
    would let the next call raise. *)
Lemma X5_use_after_close_witness :
  V4.display_image (V4.Driver 320 240 false false false) [RGB 1 2 3]
    (World [Some OSError] [] false false)
  = (Ok tt, [], World [Some OSError] [] false false).
Proof.
  apply (X5_use_after_close_is_silent (V4.Driver 320 240 false false false)
           (World [Some OSError] [] false false) 0 (PyInt 0) 0 0 None None
           [RGB 1 2 3]).
  left. reflexivity.
Defined.

(** X6.  [close] finishes its cleanup whatever fails: when the world
    raises nothing but [Exception]s, [close] returns, every handle field
    is [None] afterwards, and the release of each handle that was held is
    attempted exactly once, in the order DC line, RST line, bus, also
    when the display-off command or an earlier release raised. *)
Theorem X6_close_completes_under_failures
    (self : V4.ST7789) (w : world) (Hex : exceptions_only w) :
  result_of (V4.close self) w
    = Ok (V4.Driver (V4.width self) (V4.height self) false false false) /\
  handle_closes (trace_of (V4.close self) w)
    = (if V4._dc_request self then [RequestClose DC] else [])
      ++ (if V4._rst_request self then [RequestClose RST] else [])
      ++ (if V4._spi self then [SpiClose] else []) /\
  exceptions_only (world_after (V4.close self) w).
Proof. apply close_under_failures, Hex. Qed.

(** X6, witness: the display-off write and the DC release both raise. *)
Lemma X6_close_completes_witness :
  handle_closes
    (trace_of (V4.close (V4.Driver 320 240 true true true))
       (World [None; Some OSError; None; Some OSError] [] false false))
  = [RequestClose DC; RequestClose RST; SpiClose].
Proof.
  apply (X6_close_completes_under_failures (V4.Driver 320 240 true true true)
           (World [None; Some OSError; None; Some OSError] [] false false)).
  repeat constructor.
Defined.

(** *** Construction *)



















(* ================================================================== *)
(** ** [clear] *)

Lemma flat_map_repeat {A B} (f : A -> list B) a n :
  flat_map f (repeat a n) = concat (repeat (f a) n).
Proof. induction n as [|n IH]; [reflexivity|]. cbn. rewrite IH. reflexivity. Qed.

Lemma length_concat_repeat {A} (l : list A) n :
  length (concat (repeat l n)) = (n * length l)%nat.
Proof.
  induction n as [|n IH]; [reflexivity|].
  cbn [repeat concat]. rewrite length_app, IH. lia.
Qed.

Lemma Forall_repeat {A} (P : A -> Prop) a n : P a -> Forall P (repeat a n).
Proof. intros H. induction n; constructor; assumption. Qed.

(** X8.  [clear] on a driver that holds its handles, when no call raises:
    the window it opens is the whole panel, (0, 0, width-1, height-1); the
    pixel group is width*height copies of the two bytes of the colour's
    RGB565 value, high byte first, so 2*width*height bytes; and the only
    commands are column set, row set and memory write. *)
Theorem X8_clear_fills_screen
    (self : V4.ST7789) (color : rgb) (w : world)
    (Hcolor : rgb_ok color)
    (Hwidth : 1 <= V4.width self <= 65536)
    (Hheight : 1 <= V4.height self <= 65536)
    (Hspi : V4._spi self = true) (Hdc : V4._dc_request self = true)
    (Hw : faults w = []) :
  let t := trace_of (V4Ext.clear self color) w in
  exists cols rows pixels,
    data_groups t = [cols; rows; pixels] /\
    decode_addr cols = Some (0, V4.width self - 1) /\
    decode_addr rows = Some (0, V4.height self - 1) /\
    pixels = concat (repeat (hi_lo (spec_wire16 (red color) (green color)
                                      (blue color)))
                       (Z.to_nat (V4.width self * V4.height self))) /\
    Z.of_nat (length pixels) = 2 * (V4.width self * V4.height self) /\
    opcodes t = [V4Pure.ST7789_CASET; V4Pure.ST7789_RASET;
                 V4Pure.ST7789_RAMWR] /\
    result_of (V4Ext.clear self color) w = Ok tt.
Proof.
  cbv zeta. unfold V4Ext.clear.
  set (px := repeat color _).
  pose proof (V4Steady.display_image_steady self Hspi Hdc px) as Hst.
  unfold V4Pure.clipped_window in Hst.
  rewrite !clip_in_range in Hst by lia.
  destruct (steady_trace _ _ _ _ w Hst Hw I) as [-> Hres].
  eexists _, _, _. cbn [data_groups opcodes flat_map app].
  split; [reflexivity|].
  rewrite !decode_addr_payload by lia.
  split; [reflexivity|]. split; [reflexivity|].
  assert (V4Pure.frame_bytes px =
          concat (repeat (hi_lo (spec_wire16 (red color) (green color)
                                   (blue color)))
                    (Z.to_nat (V4.width self * V4.height self)))) as E.
  { rewrite v4_frame_bytes_spec by (apply Forall_repeat, Hcolor).
    apply (flat_map_repeat
             (fun p => hi_lo (spec_wire16 (red p) (green p) (blue p)))). }
  split; [exact E|]. split; [|split; [reflexivity | apply Hres]].
  rewrite E, length_concat_repeat. cbn [hi_lo length]. nia.
Qed.

(** X8, witness: a 2x2 panel cleared to red. *)
Lemma X8_clear_fills_screen_witness :
  exists cols rows pixels,
    data_groups (trace_of (V4Ext.clear (V4.Driver 2 2 true true true)
                             (RGB 255 0 0)) (calm []))
      = [cols; rows; pixels] /\
    pixels = [0xF8; 0; 0xF8; 0; 0xF8; 0; 0xF8; 0].
Proof.
  destruct (X8_clear_fills_screen (V4.Driver 2 2 true true true)
              (RGB 255 0 0) (calm []))
    as (cols & rows & pixels & H1 & _ & _ & H4 & _);
    try (repeat split; simpl; lia); try reflexivity.
  exists cols, rows, pixels. split; [exact H1 | exact H4].
Defined.

(* ================================================================== *)
(** ** More on the chunks of [spi_write] *)

Lemma chunk_nth size (l : list Z) i :
  (i < length (py_range_step (length l) size))%nat ->
  nth i (split_chunks size l) [] = firstn size (skipn (i * size) l).
Proof.
  intros Hi. unfold split_chunks.
  rewrite (nth_indep _ [] (py_slice l 0 (0 + size)))
    by (rewrite length_map; exact Hi).
  rewrite (map_nth (fun i => py_slice l i (i + size))).
  unfold py_range_step in *. rewrite length_map, length_seq in Hi.
  rewrite (nth_indep _ 0%nat ((fun k => (k * size)%nat) 0%nat))
    by (rewrite length_map, length_seq; exact Hi).
  rewrite (map_nth (fun k => (k * size)%nat)), seq_nth by exact Hi.
  unfold py_slice. f_equal. lia.
Qed.

Lemma chunk_count (l : list Z) :
  length (split_chunks WebmPure.SPI_CHUNK_SIZE l)
    = ((length l + 4095) / 4096)%nat /\
  length (py_range_step (length l) WebmPure.SPI_CHUNK_SIZE)
    = ((length l + 4095) / 4096)%nat.
Proof.
  unfold split_chunks, py_range_step. rewrite !length_map, length_seq.
  change WebmPure.SPI_CHUNK_SIZE with 4096%nat.
  split; f_equal; lia.
Qed.

(** X9.  The chunks that [spi_write] cuts: there are ceil(n / 4096) of
    them for a payload of n bytes; chunk i is the slice of the payload that
    starts at byte 4096*i; and every chunk but the last holds exactly 4096
    bytes. *)
Theorem X9_chunks_full_but_last (data_list : list Z) (i : nat) :
  let cs := split_chunks WebmPure.SPI_CHUNK_SIZE data_list in
  length cs = ((length data_list + 4095) / 4096)%nat /\
  ((i < length cs)%nat ->
   nth i cs [] = firstn 4096 (skipn (i * 4096) data_list)) /\
  ((S i < length cs)%nat -> length (nth i cs []) = 4096%nat).
Proof.
  cbv zeta.
  assert (length (split_chunks WebmPure.SPI_CHUNK_SIZE data_list)
          = ((length data_list + 4095) / 4096)%nat) as Hlen.
  { unfold split_chunks, py_range_step. rewrite !length_map, length_seq.
    change WebmPure.SPI_CHUNK_SIZE with 4096%nat. f_equal. lia. }
  assert (length (py_range_step (length data_list) WebmPure.SPI_CHUNK_SIZE)
          = ((length data_list + 4095) / 4096)%nat) as Hr.
  { unfold py_range_step. rewrite length_map, length_seq.
    change WebmPure.SPI_CHUNK_SIZE with 4096%nat. f_equal. lia. }
  split; [exact Hlen|]. rewrite Hlen. split.
  - intros Hi. apply (chunk_nth WebmPure.SPI_CHUNK_SIZE).
    rewrite Hr. exact Hi.
  - intros Hi.
    rewrite (chunk_nth WebmPure.SPI_CHUNK_SIZE) by (rewrite Hr; lia).
    rewrite length_firstn, length_skipn.
    change WebmPure.SPI_CHUNK_SIZE with 4096%nat.
    assert (S (S i) <= (length data_list + 4095) / 4096)%nat as H2 by lia.
    pose proof (Nat.div_mod_eq (length data_list + 4095) 4096) as Hd.
    pose proof (Nat.mod_upper_bound (length data_list + 4095) 4096
                  ltac:(lia)) as Hm.
    nia.
Qed.

(** X9, witness: 5000 bytes leave as a chunk of 4096 and a chunk of 904. *)
Lemma X9_chunks_full_but_last_witness :
  length (nth 0 (split_chunks WebmPure.SPI_CHUNK_SIZE (repeat 7 5000)) [])
    = 4096%nat.
Proof.
  apply (X9_chunks_full_but_last (repeat 7 5000) 0).
  vm_compute. lia.
Defined.

(* ================================================================== *)
(** ** The player before the bus is opened *)

Lemma written_app t1 t2 : written (t1 ++ t2) = written t1 ++ written t2.
Proof. unfold written. apply flat_map_app. Qed.

Lemma unwritten_ret {A} (a : A) : unwritten (ret a).
Proof. intros w H. split; [reflexivity | exact H]. Qed.

Lemma unwritten_call e : is_transfer e = false -> unwritten (call e).
Proof.
  intros He w H. unfold trace_of, world_after, call, next_fault.
  destruct (faults w) as [|[x|] fs]; cbn [fst snd spi];
    (split; [|exact H]); destruct e; try discriminate He; reflexivity.
Qed.

Lemma unwritten_bind {A B} (m : M A) (f : A -> M B) :
  unwritten m -> (forall a, unwritten (f a)) -> unwritten (bind m f).
Proof.
  intros Hm Hf w H. destruct (Hm w H) as [Ht Hs].
  rewrite trace_bind, world_bind.
  destruct (result_of m w) as [a|e].
  - destruct (Hf a _ Hs) as [Ht2 Hs2].
    rewrite written_app, Ht, Ht2. split; [reflexivity | exact Hs2].
  - split; [exact Ht | exact Hs].
Qed.

Lemma spi_write_unwritten k l : unwritten (Webm.spi_write k l).
Proof.
  intros w H. unfold Webm.spi_write, trace_of, world_after, bind, get_spi.
  rewrite H. cbn. split; [reflexivity | exact H].
Qed.

Lemma write_command_unwritten cmd : unwritten (Webm.write_command cmd).
Proof.
  unfold Webm.write_command.
  apply unwritten_bind; [apply unwritten_call; reflexivity|].
  intros _. apply spi_write_unwritten.
Qed.

Lemma write_data_unwritten d : unwritten (Webm.write_data d).
Proof.
  unfold Webm.write_data.
  apply unwritten_bind; [apply unwritten_call; reflexivity|].
  intros _. destruct d; apply spi_write_unwritten.
Qed.

Ltac unwritten_step :=
  first [ apply write_command_unwritten
        | apply write_data_unwritten
        | apply unwritten_call; reflexivity
        | apply unwritten_bind; [|intros ?] ].

Lemma player_init_unwritten : unwritten Webm.init_display.
Proof.
  unfold Webm.init_display, Webm.reset_display. repeat unwritten_step.
Qed.

Lemma display_frame_unwritten px : unwritten (Webm.display_frame_rgb565 px).
Proof.
  unfold Webm.display_frame_rgb565, Webm.set_address_window.
  repeat unwritten_step.
Qed.

Lemma shut_write_command cmd w :
  spi w = false -> faults w = [] ->
  Webm.write_command cmd w = (Ok tt, [SetValue DC false], w).
Proof.
  intros Hs Hf. unfold Webm.write_command.
  rewrite (bind_run _ _ _ _ _ _ (steady_call anywhere _ w Hf I)).
  unfold Webm.spi_write, bind, get_spi. rewrite Hs. reflexivity.
Qed.

(** X10.  While the global [spi] is unset, nothing the player's display
    helpers do reaches the bus: [write_command], [write_data],
    [init_display] and [display_frame_rgb565] make no [writebytes] call in
    any world and leave [spi] unset.  The mode-select line is driven all
    the same: when no call raises, [write_command] is exactly one write of
    the DC line, low, and it returns normally. *)
Theorem X10_no_write_before_open
    (cmd : Z) (d : data_val) (px : list rgb) (w : world)
    (Hshut : spi w = false) :
  written (trace_of (Webm.write_command cmd) w) = [] /\
  written (trace_of (Webm.write_data d) w) = [] /\
  written (trace_of Webm.init_display w) = [] /\
  written (trace_of (Webm.display_frame_rgb565 px) w) = [] /\
  spi (world_after Webm.init_display w) = false /\
  spi (world_after (Webm.display_frame_rgb565 px) w) = false /\
  (faults w = [] ->
   Webm.write_command cmd w = (Ok tt, [SetValue DC false], w)).
Proof.
  repeat split;
    first [ apply write_command_unwritten, Hshut
          | apply write_data_unwritten, Hshut
          | apply player_init_unwritten, Hshut
          | apply display_frame_unwritten, Hshut
          | idtac ].
  intros Hf. apply shut_write_command; assumption.
Qed.

(** X10, witness: the initialisation in a world where the bus was never
    opened and the third call raises. *)
Lemma X10_no_write_before_open_witness :
  written (trace_of Webm.init_display
             (World [None; None; Some OSError] [] false false)) = [].
Proof.
  apply (X10_no_write_before_open 0 (PyInt 0) []
           (World [None; None; Some OSError] [] false false)).
  reflexivity.
Defined.

(* ================================================================== *)
(** ** A frame on the wire *)

Lemma display_frame_calm px w :
  faults w = [] -> spi w = true ->
  Webm.display_frame_rgb565 px w = (Ok tt, frame_calls px, w).
Proof.
  intros Hf Hs.
  assert (steady spi_set (Webm.display_frame_rgb565 px) tt (frame_calls px))
    as H.
  { unfold Webm.display_frame_rgb565.
    eapply steady_seq;
      [apply WebmSteady.set_address_window_steady |
      | apply WebmSteady.write_data_steady].
    unfold WebmPure.addr_payload. rewrite !four_byte_chunk. reflexivity. }
  apply H; assumption.
Qed.

Lemma data_groups_chunks cs : data_groups (map (WriteBytes Data) cs) = cs.
Proof. induction cs as [|c cs IH]; [reflexivity|]. cbn. f_equal. exact IH. Qed.

Lemma written_chunks k cs : written (map (WriteBytes k) cs) = cs.
Proof. induction cs as [|c cs IH]; [reflexivity|]. cbn. f_equal. exact IH. Qed.

Lemma opcodes_chunks cs : opcodes (map (WriteBytes Data) cs) = [].
Proof. induction cs as [|c cs IH]; [reflexivity|]. exact IH. Qed.

Lemma chunk_size_pos : (0 < WebmPure.SPI_CHUNK_SIZE)%nat.
Proof. unfold WebmPure.SPI_CHUNK_SIZE. lia. Qed.

Lemma frame_calls_bytes px :
  data_bytes (frame_calls px) = full_screen_address ++ WebmPure.frame_bytes px.
Proof.
  unfold data_bytes, frame_calls. rewrite data_groups_app.
  rewrite data_groups_chunks. cbn [data_groups flat_map app].
  cbn [concat]. rewrite (proj1 (split_chunks_spec _ chunk_size_pos _)).
  unfold full_screen_address. rewrite <- !app_assoc. reflexivity.
Qed.

Lemma frame_bytes_length px :
  length (WebmPure.frame_bytes px) = (2 * length px)%nat.
Proof.
  unfold WebmPure.frame_bytes.
  induction px as [|p px IH]; [reflexivity|].
  cbn [flat_map]. rewrite length_app, IH, webm_pixel_bytes_hi_lo.
  cbn [length]. lia.
Qed.

(** X14.  One frame of the player on the wire, bus open and no call
    raising: the commands are column set, row set, memory write; the data
    bytes are the eight address bytes of the window (0, 0, 319, 239)
    followed by the pixel bytes, two per pixel, unchanged by the chunking;
    the frame costs 5 + ceil(2 * pixels / 4096) bus writes, which is 43 for
    a 320x240 frame; for 8-bit pixels the bytes are those of the closed
    RGB565 formula, high byte first. *)
Theorem X14_frame_on_the_wire (px : list rgb) (w : world)
    (Hopen : spi w = true) (Hcalm : faults w = []) :
  let t := trace_of (Webm.display_frame_rgb565 px) w in
  result_of (Webm.display_frame_rgb565 px) w = Ok tt /\
  opcodes t = [0x2A; 0x2B; 0x2C] /\
  data_bytes t = full_screen_address ++ WebmPure.frame_bytes px /\
  length (data_bytes t) = (8 + 2 * length px)%nat /\
  length (written t) = (5 + (2 * length px + 4095) / 4096)%nat /\
  (Z.of_nat (length px) = WebmPure.WIDTH * WebmPure.HEIGHT ->
   length (written t) = 43%nat) /\
  (Forall rgb_ok px ->
   data_bytes t =
     full_screen_address ++
     flat_map (fun p => hi_lo (spec_wire16 (red p) (green p) (blue p))) px).
Proof.
  cbv zeta. unfold result_of, trace_of.
  rewrite (display_frame_calm px w Hcalm Hopen). cbn [fst snd].
  assert (length (written (frame_calls px))
          = (5 + (2 * length px + 4095) / 4096)%nat) as Hn.
  { unfold frame_calls. rewrite written_app, written_chunks, length_app.
    destruct (chunk_count (WebmPure.frame_bytes px)) as [-> _].
    rewrite frame_bytes_length. reflexivity. }
  split; [reflexivity|]. split.
  { unfold frame_calls, opcodes. rewrite flat_map_app.
    fold (opcodes (map (WriteBytes Data)
                     (split_chunks WebmPure.SPI_CHUNK_SIZE
                        (WebmPure.frame_bytes px)))).
    rewrite opcodes_chunks. reflexivity. }
  split; [apply frame_calls_bytes|].
  split.
  { rewrite frame_calls_bytes, length_app, frame_bytes_length. reflexivity. }
  split; [exact Hn|]. split.
  - intros Hpx. rewrite Hn.
    unfold WebmPure.WIDTH, WebmPure.HEIGHT in Hpx.
    assert (Z.of_nat ((2 * length px + 4095) / 4096) = 38) as H38.
    { rewrite Nat2Z.inj_div, Nat2Z.inj_add, Nat2Z.inj_mul, Hpx.
      reflexivity. }
    lia.
  - intros Hok. rewrite frame_calls_bytes, webm_frame_bytes_spec by exact Hok.
    reflexivity.
Qed.

(** X14, witness: two pixels, red and white. *)
Lemma X14_frame_on_the_wire_witness :
  data_bytes (trace_of (Webm.display_frame_rgb565
                          [RGB 255 0 0; RGB 255 255 255])
                (World [] [] true false))
    = [0; 0; 1; 63; 0; 0; 0; 239; 0xF8; 0; 0xFF; 0xFF].
Proof.
  apply (X14_frame_on_the_wire [RGB 255 0 0; RGB 255 255 255]
           (World [] [] true false)); try reflexivity.
  repeat constructor; simpl; lia.
Defined.

(* ================================================================== *)
(** ** The playback loop, frame by frame *)

Lemma monotonic_playing w :
  playing w -> exists t w1, monotonic w = (Ok t, [], w1) /\ playing w1.
Proof.
  intros H. unfold monotonic. destruct (clock w) as [|t ts] eqn:E.
  - exists 0%Q, w. split; [reflexivity | exact H].
  - eexists _, _. split; [reflexivity|]. apply (playing_clock w t ts H E).
Qed.

Lemma data_bytes_app t1 t2 : data_bytes (t1 ++ t2) = data_bytes t1 ++ data_bytes t2.
Proof. unfold data_bytes. rewrite data_groups_app. apply concat_app. Qed.

Lemma reads_app t1 t2 : reads (t1 ++ t2) = (reads t1 + reads t2)%nat.
Proof. unfold reads. rewrite filter_app. apply length_app. Qed.

Lemma reads_frame_calls px : reads (frame_calls px) = 0%nat.
Proof.
  unfold frame_calls. rewrite reads_app. cbn [reads filter length Nat.add].
  unfold reads. induction (split_chunks _ _) as [|c cs IH]; [reflexivity|].
  exact IH.
Qed.

(** A pass that reads a full frame, in the loop's steady state. *)
Lemma loop_pass_full bs s w :
  playing w -> Z.of_nat (length bs) = Webm.frame_size ->
  exists s' paced w',
    Webm.loop_body (ReadBytes bs) s w
      = (Ok (Webm.Next s'),
         ReadStdout :: frame_calls (triples bs) ++ paced, w') /\
    playing w' /\
    Webm.frame_count s' = Webm.frame_count s + 1 /\
    data_bytes paced = [] /\ reads paced = 0%nat.
Proof.
  intros Hp Hfull.
  destruct (monotonic_playing w Hp) as (t0 & w1 & Hm0 & Hp1).
  destruct (monotonic_playing w1 Hp1) as (t1 & w2 & Hm1 & Hp2).
  destruct (monotonic_playing w2 Hp2) as (t2 & w3 & Hm2 & Hp3).
  assert ((length bs =? 0)%nat = false) as E0.
  { apply Nat.eqb_neq.
    unfold Webm.frame_size, WebmPure.WIDTH, WebmPure.HEIGHT in Hfull. lia. }
  unfold Webm.loop_body.
  rewrite (bind_run _ _ _ _ _ _ Hm0).
  erewrite bind_run by reflexivity.
  cbv beta iota. rewrite E0, Hfull, Z.ltb_irrefl.
  unfold Webm.frombytes. rewrite Hfull, Z.eqb_refl.
  rewrite (bind_run _ _ _ _ _ _
             (display_frame_calm (triples bs) w1 (proj1 Hp1)
                (proj1 (proj2 Hp1)))).
  rewrite (bind_run _ _ _ _ _ _ Hm1).
  rewrite (bind_run _ _ _ _ _ _ (pace_calm t0 t1 w2 (proj1 Hp2))).
  rewrite (bind_run _ _ _ _ _ _ Hm2).
  set (paced := if Qlt_le_dec 0 (Webm.frame_interval - (t1 - t0))
                then [Sleep (Webm.frame_interval - (t1 - t0))] else []).
  assert (data_bytes paced = [] /\ reads paced = 0%nat) as [Hd Hr]
    by (subst paced; destruct (Qlt_le_dec 0 _); split; reflexivity).
  destruct (Qle_bool 2 _); cbn [ret app]; rewrite ?app_nil_r;
    eexists _, paced, _; (split; [reflexivity|]);
    (split; [exact Hp3|]); repeat split; assumption || reflexivity.
Qed.

(** A pass whose read ends the loop. *)
Lemma loop_pass_stop rd s w :
  playing w -> within_frame rd -> is_full_frame rd = false ->
  exists r t w',
    Webm.loop_body rd s w = (r, t, w') /\
    data_bytes t = [] /\ reads t = 1%nat /\
    match r with
    | Ok c => c = Webm.Break
    | Err e => rd = ReadRaises e /\ is_Exception e = false
    end.
Proof.
  intros Hp Hin Hnot.
  destruct (monotonic_playing w Hp) as (t0 & w1 & Hm0 & Hp1).
  unfold Webm.loop_body. rewrite (bind_run _ _ _ _ _ _ Hm0).
  destruct rd as [bs|e]; cbn [is_full_frame within_frame] in *.
  - erewrite bind_run by reflexivity. cbv beta iota.
    destruct (length bs =? 0)%nat;
      [eexists _, _, _; repeat split; reflexivity|].
    assert ((Z.of_nat (length bs) <? Webm.frame_size) = true) as ->.
    { apply Z.ltb_lt. apply Z.eqb_neq in Hnot. lia. }
    eexists _, _, _; repeat split; reflexivity.
  - destruct (is_Exception e) eqn:Ee.
    + assert (try_except (in_bytes <- Webm.read (ReadRaises e) ;;
                          ret (Some in_bytes)) (fun _ => ret None) w1
              = (Ok None, [ReadStdout; Raised e], w1)) as Hr.
      { unfold try_except, try_catch, bind, Webm.read. rewrite Ee.
        reflexivity. }
      rewrite (bind_run _ _ _ _ _ _ Hr).
      eexists _, _, _; repeat split; reflexivity.
    + assert (try_except (in_bytes <- Webm.read (ReadRaises e) ;;
                          ret (Some in_bytes)) (fun _ => ret None) w1
              = (Err e, [ReadStdout; Raised e], w1)) as Hr.
      { unfold try_except, try_catch, bind, Webm.read. rewrite Ee.
        reflexivity. }
      rewrite (bind_err _ _ _ _ _ _ Hr).
      eexists _, _, _; repeat split; try reflexivity. exact Ee.
Qed.

Lemma playback_loop_frames stream : forall s w,
  playing w -> Forall within_frame stream ->
  data_bytes (trace_of (Webm.playback_loop stream s) w)
    = flat_map (fun bs => full_screen_address
                          ++ WebmPure.frame_bytes (triples bs))
               (leading_frames stream) /\
  reads (trace_of (Webm.playback_loop stream s) w)
    = S (length (leading_frames stream)) /\
  match result_of (Webm.playback_loop stream s) w with
  | Ok s' => Webm.frame_count s'
             = Webm.frame_count s + Z.of_nat (length (leading_frames stream))
  | Err e => In (ReadRaises e) stream /\ is_Exception e = false
  end.
Proof.
  induction stream as [|rd rest IH]; intros s w Hp Hall;
    cbn [Webm.playback_loop].
  - destruct (loop_pass_stop (ReadBytes []) s w Hp) as
      (r & t & w' & Hrun & Hd & Hr & Hres);
      [cbn; unfold Webm.frame_size, WebmPure.WIDTH, WebmPure.HEIGHT; lia
      | reflexivity |].
    unfold trace_of, result_of, bind. rewrite Hrun.
    destruct r as [c|e]; [|destruct Hres as [Hres _]; discriminate Hres].
    cbn [ret fst snd leading_frames flat_map length].
    rewrite app_nil_r, Hd, Hr. repeat split. cbn. lia.
  - inversion Hall as [|? ? Hrd Hrest]; subst.
    destruct (is_full_frame rd) eqn:Efull.
    + destruct rd as [bs|e]; [|discriminate Efull].
      cbn [is_full_frame] in Efull. apply Z.eqb_eq in Efull.
      destruct (loop_pass_full bs s w Hp Efull)
        as (s' & paced & w' & Hrun & Hp' & Hcount & Hd & Hr).
      destruct (IH s' w' Hp' Hrest) as (IHd & IHr & IHres).
      unfold trace_of, result_of in *.
      rewrite (bind_run _ _ _ _ _ _ Hrun).
      destruct (Webm.playback_loop rest s' w') as [[r t] wf].
      cbn [fst snd] in *. cbn [leading_frames].
      rewrite Efull, Z.eqb_refl. cbn [flat_map length].
      split; [|split].
      * change (ReadStdout :: frame_calls (triples bs) ++ paced)
          with ([ReadStdout] ++ frame_calls (triples bs) ++ paced).
        rewrite !data_bytes_app, frame_calls_bytes, Hd, IHd.
        cbn [data_bytes data_groups flat_map concat app].
        rewrite app_nil_r. reflexivity.
      * change (ReadStdout :: frame_calls (triples bs) ++ paced)
          with ([ReadStdout] ++ frame_calls (triples bs) ++ paced).
        rewrite !reads_app, reads_frame_calls, Hr, IHr. reflexivity.
      * destruct r as [sf|e]; [rewrite IHres, Hcount; lia|].
        split; [right|]; apply IHres.
    + destruct (loop_pass_stop rd s w Hp Hrd Efull)
        as (r & t & w' & Hrun & Hd & Hr & Hres).
      assert (leading_frames (rd :: rest) = []) as ->.
      { destruct rd as [bs|e]; [|reflexivity].
        cbn [leading_frames is_full_frame] in *. rewrite Efull. reflexivity. }
      unfold trace_of, result_of, bind. rewrite Hrun.
      destruct r as [c|e].
      * subst c. cbn [ret fst snd flat_map length].
        rewrite app_nil_r, Hd, Hr. repeat split. cbn. lia.
      * cbn [fst snd flat_map length]. rewrite Hd, Hr.
        destruct Hres as [-> He]. repeat split; [left; reflexivity | exact He].
Qed.

(** X13.  The playback loop, started with the bus open and the decoder
    running, when no call raises and every read gives at most one frame of
    bytes: it displays exactly the full frames at the head of the stream,
    in order, and stops at the first read that is short, empty or raises;
    the bytes that reach the panel are, frame after frame, the full-screen
    window address and the converted pixels; it reads once more than it
    displays; the frame counter grows by the number of frames displayed;
    and the only exception that leaves the loop is a non-[Exception]
    (an interrupt) raised by a read. *)
Theorem X13_loop_shows_leading_frames
    (stream : list read_result) (s : Webm.session) (w : world)
    (Hplaying : playing w) (Hreads : Forall within_frame stream) :
  let t := trace_of (Webm.playback_loop stream s) w in
  data_bytes t
    = flat_map (fun bs => full_screen_address
                          ++ WebmPure.frame_bytes (triples bs))
               (leading_frames stream) /\
  reads t = S (length (leading_frames stream)) /\
  match result_of (Webm.playback_loop stream s) w with
  | Ok s' => Webm.frame_count s'
             = Webm.frame_count s + Z.of_nat (length (leading_frames stream))
  | Err e => In (ReadRaises e) stream /\ is_Exception e = false
  end.
Proof. exact (playback_loop_frames stream s w Hplaying Hreads). Qed.

(** X13, witness: one black frame, then the end of the stream. *)
Lemma X13_loop_shows_leading_frames_witness :
  reads (trace_of (Webm.playback_loop
                     [ReadBytes (repeat 0 (Z.to_nat 230400)); ReadBytes []]
                     (Webm.Session 0 0%Q 0%Q))
           (World [] [] true true)) = 2%nat.
Proof.
  destruct (X13_loop_shows_leading_frames
              [ReadBytes (repeat 0 (Z.to_nat 230400)); ReadBytes []]
              (Webm.Session 0 0%Q 0%Q) (World [] [] true true))
    as (_ & Hr & _).
  - repeat split; reflexivity.
  - repeat constructor; vm_compute; discriminate.
  - rewrite Hr. vm_compute. reflexivity.
Defined.

(* ================================================================== *)
(** ** Starting the decoder *)

Lemma extract_frames_cases starts w :
  fst (Webm.extract_frames starts w)
    = (Ok starts, [Spawn; Sleep 0.1] ++ if starts then [] else [ReadStderr]) \/
  exists x pre,
    In (Some x) (faults w) /\
    (pre = [Spawn] \/ pre = [Spawn; Sleep 0.1] \/
     (starts = false /\ pre = [Spawn; Sleep 0.1; ReadStderr])) /\
    fst (Webm.extract_frames starts w)
      = (if is_Exception x then Ok false else Err x, pre ++ [Raised x]).
Proof.
  unfold Webm.extract_frames, try_except, try_catch, bind, call, next_fault.
  destruct w as [fs clk s p]. cbn [faults clock spi ffmpeg_proc].
  destruct fs as [|[x|] fs]; cbn [fst snd app ret].
  - left. destruct starts; reflexivity.
  - right. exists x, [Spawn]. cbn.
    split; [auto|]. split; [auto|]. destruct (is_Exception x); reflexivity.
  - destruct fs as [|[y|] fs]; cbn [fst snd app ret].
    + left. destruct starts; reflexivity.
    + right. exists y, [Spawn; Sleep 0.1]. cbn.
      split; [auto|]. split; [auto|]. destruct (is_Exception y); reflexivity.
    + destruct starts; cbn [negb fst snd app ret]; [left; reflexivity|].
      destruct fs as [|[z|] fs]; cbn [fst snd app ret].
      * left. reflexivity.
      * right. exists z, [Spawn; Sleep 0.1; ReadStderr]. cbn.
        split; [auto|]. split; [auto|].
        destruct (is_Exception z); reflexivity.
      * left. reflexivity.
Qed.

(** X11.  [extract_frames] hands back a process only when ffmpeg was
    spawned, the 0.1 s wait returned and the liveness check found the
    process alive.  When the process has died, its diagnostic stream is
    read and the result is [None]; that read is made in no other case.  An
    [Exception] from the spawn, the wait or the read is printed and gives
    [None]; only a non-[Exception] (an interrupt) leaves the function.  The
    spawn is the first call and nothing is put on the bus. *)
Theorem X11_extract_frames_outcomes (starts : bool) (w : world) :
  let r := result_of (Webm.extract_frames starts) w in
  let t := trace_of (Webm.extract_frames starts) w in
  (r = Ok true -> starts = true /\ t = [Spawn; Sleep 0.1]) /\
  (r = Ok false ->
   (starts = false /\ t = [Spawn; Sleep 0.1; ReadStderr]) \/
   exists x, is_Exception x = true /\
     (t = [Spawn; Raised x] \/ t = [Spawn; Sleep 0.1; Raised x] \/
      (starts = false /\ t = [Spawn; Sleep 0.1; ReadStderr; Raised x]))) /\
  (forall e, r = Err e ->
     is_Exception e = false /\
     (t = [Spawn; Raised e] \/ t = [Spawn; Sleep 0.1; Raised e] \/
      (starts = false /\ t = [Spawn; Sleep 0.1; ReadStderr; Raised e]))) /\
  (exceptions_only w -> exists p, r = Ok p) /\
  (starts = true -> ~ In ReadStderr t) /\
  (exists rest, t = Spawn :: rest) /\
  written t = [].
Proof.
  cbv zeta. unfold result_of, trace_of.
  destruct (extract_frames_cases starts w)
    as [H | (x & pre & Hin & Hpre & H)]; rewrite H; cbn [fst snd].
  - split; [intros E; injection E as ->; auto|].
    split; [intros E; injection E as ->; auto|].
    split; [intros e E; discriminate E|].
    split; [intros _; eauto|].
    split; [intros ->; cbn; intuition discriminate|].
    split; [eexists; reflexivity|].
    destruct starts; reflexivity.
  - assert (pre ++ [Raised x] = [Spawn; Raised x] \/
            pre ++ [Raised x] = [Spawn; Sleep 0.1; Raised x] \/
            (starts = false /\
             pre ++ [Raised x] = [Spawn; Sleep 0.1; ReadStderr; Raised x]))
      as Ht by (destruct Hpre as [-> | [-> | [-> ->]]]; auto).
    destruct (is_Exception x) eqn:Ex.
    + split; [intros E; discriminate E|].
      split; [intros _; right; exists x; auto|].
      split; [intros e E; discriminate E|].
      split; [intros _; eauto|].
      split; [intros ->; destruct Hpre as [-> | [-> | [E _]]];
              [cbn; intuition discriminate | cbn; intuition discriminate
              | discriminate E]|].
      split; [destruct Hpre as [-> | [-> | [_ ->]]]; eexists; reflexivity|].
      destruct Hpre as [-> | [-> | [_ ->]]]; reflexivity.
    + split; [intros E; discriminate E|].
      split; [intros E; discriminate E|].
      split; [intros e E; injection E as <-; auto|].
      split.
      { intros Hw. unfold exceptions_only in Hw. rewrite Forall_forall in Hw.
        specialize (Hw _ Hin). cbn in Hw. congruence. }
      split; [intros ->; destruct Hpre as [-> | [-> | [E _]]];
              [cbn; intuition discriminate | cbn; intuition discriminate
              | discriminate E]|].
      split; [destruct Hpre as [-> | [-> | [_ ->]]]; eexists; reflexivity|].
      destruct Hpre as [-> | [-> | [_ ->]]]; reflexivity.
Qed.

(** X11, witness: ffmpeg dies at once; reading its diagnostic stream
    fails with [OSError]. *)
Lemma X11_extract_frames_witness :
  exists p, result_of (Webm.extract_frames false)
              (World [None; None; Some OSError] [] true false) = Ok p.
Proof.
  apply (X11_extract_frames_outcomes false
           (World [None; None; Some OSError] [] true false)).
  repeat constructor.
Defined.

(* ================================================================== *)
(** ** What can leave [play_video] *)

Section Escapes.
Variable ok : event -> exn -> Prop.

Lemma escapes_ret {A} (a : A) : escapes ok (ret a).
Proof. intros w e H. discriminate H. Qed.

Lemma escapes_get_spi : escapes ok get_spi.
Proof. intros w e H. discriminate H. Qed.

Lemma escapes_get_ffmpeg_proc : escapes ok get_ffmpeg_proc.
Proof. intros w e H. discriminate H. Qed.

Lemma escapes_call c : (forall e, ok c e) -> escapes ok (call c).
Proof.
  intros Hc w e. unfold result_of, trace_of, call.
  destruct (next_fault w) as [[x|] w1]; cbn [fst snd]; intros H;
    [|discriminate H].
  injection H as <-. exists [], c. split; [reflexivity | apply Hc].
Qed.

Lemma escapes_bind {A B} (m : M A) (f : A -> M B) :
  escapes ok m -> (forall a, escapes ok (f a)) -> escapes ok (bind m f).
Proof.
  intros Hm Hf w e. rewrite result_bind, trace_bind.
  destruct (result_of m w) as [a|e'] eqn:Er.
  - intros H. destruct (Hf a _ e H) as (pre & c & -> & Hok).
    exists (trace_of m w ++ pre), c. rewrite app_assoc. auto.
  - intros H. injection H as ->. apply (Hm w e Er).
Qed.

Lemma escapes_try_catch {A} (ok' : event -> exn -> Prop) catches
    (body : M A) h :
  escapes ok' body ->
  (forall c e, ok' c e -> catches e = false -> ok c e) ->
  (forall e, escapes ok (h e)) ->
  escapes ok (try_catch catches body h).
Proof.
  intros Hb Hpass Hh w e. specialize (Hb w).
  unfold result_of, trace_of, try_catch in *.
  destruct (body w) as [[[a|x] t] w1]; cbn [fst snd] in *;
    [intros H; discriminate H|].
  destruct (catches x) eqn:Ec.
  - specialize (Hh x w1 e). unfold result_of, trace_of in Hh.
    destruct (h x w1) as [[r t2] w2]. cbn [fst snd] in *.
    intros H. destruct (Hh H) as (pre & c & -> & Hok).
    exists (t ++ pre), c. rewrite app_assoc. auto.
  - cbn [fst snd]. intros H. injection H as ->.
    destruct (Hb e eq_refl) as (pre & c & -> & Hok).
    exists pre, c. split; [reflexivity|]. apply Hpass; assumption.
Qed.

End Escapes.

Lemma cleanup_escapes running : escapes cleanup_raise (Webm.cleanup running).
Proof.
  unfold Webm.cleanup.
  apply escapes_bind; [apply escapes_get_ffmpeg_proc | intros p].
  apply escapes_bind.
  - destruct (p && running); [|apply escapes_ret].
    apply escapes_bind; [apply escapes_call; intros e; exact I | intros _].
    apply escapes_bind.
    + apply (escapes_try_catch cleanup_raise (fun c _ => c = Wait)).
      * intros w e H. destruct (escapes_call (fun c _ => c = Wait) Wait
                                  (fun _ => eq_refl) w e H)
          as (pre & c & Ht & Hc).
        exists pre, c. auto.
      * intros c e -> Hc. cbn. destruct e; try discriminate Hc. reflexivity.
      * intros e. destruct e; try apply escapes_ret.
        apply escapes_call. intros e. exact I.
    + intros _.
      apply escapes_bind; [apply escapes_call; intros e; exact I | intros _].
      apply escapes_call. intros e. exact I.
  - intros _. apply escapes_bind; [apply escapes_get_spi | intros s].
    destruct s; [apply escapes_call; intros e; exact I | apply escapes_ret].
Qed.

Lemma caught_all_returns {A} (body : M A) (a : A) w :
  exists v t w1,
    try_catch (fun _ => true) body (fun _ => ret a) w = (Ok v, t, w1).
Proof.
  unfold try_catch. destruct (body w) as [[[v|e] t] w1]; cbn; eauto.
Qed.

(** X12.  [play_video] absorbs whatever is raised before its [finally]
    block, interrupts included: an exception leaves it only when the last
    call made was one of the unguarded calls of the cleanup
    ([terminate], [kill], the two pipe closes, [spi.close], or a [wait]
    that was interrupted) and that call raised it; in particular nothing
    leaves it when the video file does not exist. *)
Theorem X12_play_video_escapes (sc : Webm.scenario) (w : world) (e : exn)
    (Hraises : result_of (Webm.play_video sc) w = Err e) :
  Webm.isfile sc = true /\
  exists pre c,
    trace_of (Webm.play_video sc) w = pre ++ [c; Raised e] /\
    cleanup_raise c e /\
    In c [Terminate; Wait; Kill; CloseStdout; CloseStderr; SpiClose].
Proof.
  unfold Webm.play_video, result_of, trace_of in *.
  destruct (Webm.isfile sc); cbn [negb] in *; [|discriminate Hraises].
  split; [reflexivity|].
  unfold bind, set_ffmpeg_proc, try_finally in *.
  match goal with |- context [try_catch ?c ?b ?h ?w0] =>
    destruct (caught_all_returns b tt w0) as (v & t & w1 & Hb) end.
  rewrite Hb in *.
  pose proof (cleanup_escapes (Webm.running_at_cleanup sc) w1 e) as Hc.
  unfold result_of, trace_of in Hc.
  destruct (Webm.cleanup (Webm.running_at_cleanup sc) w1)
    as [[[u|x] t2] w2]; cbn [fst snd app] in *; [discriminate Hraises|].
  injection Hraises as ->.
  destruct (Hc eq_refl) as (pre & c & -> & Hok).
  exists (t ++ pre), c. rewrite app_assoc.
  split; [reflexivity|]. split; [exact Hok|].
  destruct c; cbn in Hok |- *; tauto.
Qed.

(** X12, witness: the bus cannot be opened and cannot be closed either;
    the first failure is absorbed, the second one leaves [play_video]. *)
Lemma X12_play_video_escapes_witness :
  exists pre c,
    trace_of (Webm.play_video (Webm.Scenario true true true []))
      (World [Some OSError; Some ValueError] [] false false)
      = pre ++ [c; Raised ValueError] /\
    cleanup_raise c ValueError /\
    In c [Terminate; Wait; Kill; CloseStdout; CloseStderr; SpiClose].
Proof.
  apply (X12_play_video_escapes (Webm.Scenario true true true [])
           (World [Some OSError; Some ValueError] [] false false) ValueError).
  vm_compute. reflexivity.
Defined.

(** A run of [play_video] on a missing file. *)
Lemma play_video_missing_file sc w :
  Webm.isfile sc = false -> Webm.play_video sc w = (Ok tt, [], w).
Proof. intros H. unfold Webm.play_video. rewrite H. reflexivity. Qed.

(* ================================================================== *)
(** ** The driver's methods and [Exception]s *)








(** X16.  [data] with a list that holds a value outside [range(256)]:
    [bytes(data_val)] raises before the transport is reached, so in no
    world does anything go on the bus; when the mode-select write itself
    returns, the call drives the DC line high, makes no other call and
    returns normally. *)
Theorem X16_data_rejects_wide_values
    (self : V4.ST7789) (l : list Z) (w : world)
    (Hwide : forallb in_byte_range l = false) :
  written (trace_of (V4.data self (PyList l)) w) = [] /\
  (V4._spi self = true -> V4._dc_request self = true ->
   fst (next_fault w) = None ->
   V4.data self (PyList l) w
     = (Ok tt, [SetValue DC true], snd (next_fault w))).
Proof.
  unfold V4.data. rewrite Hwide. split.
  - destruct (_ || _); [reflexivity|].
    unfold trace_of, try_except, try_catch, bind, call, raise.
    destruct (next_fault w) as [[x|] w1]; cbn [fst snd];
      [destruct (is_Exception x); reflexivity | reflexivity].
  - intros -> -> Hn. cbn [negb orb].
    unfold try_except, try_catch, bind, call, raise.
    destruct (next_fault w) as [[x|] w1]; cbn [fst snd] in *;
      [discriminate Hn | reflexivity].
Qed.

(** X16, witness: the value 256 in the payload. *)
Lemma X16_data_rejects_wide_values_witness :
  written (trace_of (V4.data (V4.Driver 320 240 true true true)
                       (PyList [1; 256])) (calm [])) = [].
Proof.
  apply (X16_data_rejects_wide_values (V4.Driver 320 240 true true true)
           [1; 256] (calm [])).
  reflexivity.
Defined.
